(** * nba-ingest: generator, loader and orchestrator

    A shallow embedding of the three Python programs of the repository
    ([nba_ingest.py], [database_loader.py], [run_complete_pipeline.py])
    and the proofs of the properties stated about them.

    Conventions of the embedding:
    - Python [int] is [Z]; Python [float] is idealised as an exact
      rational [Q] (no binary64 rounding error is modelled);
    - Python [str] is [string]; [str(n)], [int(s)], slicing and [split]
      are written out on the characters;
    - a [dict] iterated in insertion order is an association list; a
      [dict] mutated through an alias lives in a store of objects;
    - the [random] module is an oracle: a numbered sequence of raw draws
      that the program consumes one by one;
    - exceptions are an error result that aborts the computation. *)

From Stdlib Require Import ZArith QArith Qround Qabs Lia Lqa List Ascii String.
From Stdlib Require Import DecimalString DecimalZ.
From stdpp Require Import base option list strings gmap.

Local Open Scope Z_scope.

(** ** Python strings *)

Module PyStr.

(** [str(n)] for an [int]. *)
Definition str (n : Z) : string := NilEmpty.string_of_int (Z.to_int n).

(** [int(s)] on the strings that occur here: an optional minus sign and
    decimal digits; anything else (the empty string too) is a
    [ValueError]. *)
Definition int (s : string) : option Z :=
  option_map Z.of_int (NilZero.int_of_string s).

(** [s[k:]]. *)
Fixpoint slice_from (k : nat) (s : string) : string :=
  match k, s with
  | O, _ => s
  | S _, EmptyString => EmptyString
  | S k', String _ s' => slice_from k' s'
  end.

(** [s.split(c)[0]]: the characters before the first [c]. *)
Fixpoint split_head (c : ascii) (s : string) : string :=
  match s with
  | EmptyString => EmptyString
  | String a s' => if Ascii.eqb a c then EmptyString else String a (split_head c s')
  end.

(** [s.replace(a, b)] for single characters. *)
Fixpoint replace_char (a b : ascii) (s : string) : string :=
  match s with
  | EmptyString => EmptyString
  | String x s' => String (if Ascii.eqb x a then b else x) (replace_char a b s')
  end.

(** [s.lower()] on ASCII letters. *)
Definition lower_char (c : ascii) : ascii :=
  let n := nat_of_ascii c in
  if (65 <=? n)%nat && (n <=? 90)%nat then ascii_of_nat (n + 32) else c.

Fixpoint lower (s : string) : string :=
  match s with
  | EmptyString => EmptyString
  | String x s' => String (lower_char x) (lower s')
  end.

End PyStr.

(** ** Season strings ([ComprehensiveNBAIngester.__init__]) *)

(** [range(a, b)]. *)
Definition py_range (a b : Z) : list Z :=
  map (fun k => a + Z.of_nat k) (seq 0 (Z.to_nat (b - a))).

(** [f"{year}-{str(year+1)[2:]}"]. *)
Definition season_of_year (year : Z) : string :=
  PyStr.str year +:+ "-" +:+ PyStr.slice_from 2 (PyStr.str (year + 1)).

(** [self.seasons]. *)
Definition seasons (start_year end_year : Z) : list string :=
  map season_of_year (py_range start_year (end_year + 1)).

(** The format the specification gives for a season string:
    ["{year}-{(year+1) mod 100:02d}"]. *)
Definition two_digits (n : Z) : string :=
  if n <? 10 then "0" +:+ PyStr.str n else PyStr.str n.

Definition spec_season_format (year : Z) : string :=
  PyStr.str year +:+ "-" +:+ two_digits ((year + 1) mod 100).

(** ** Python numbers *)

Module PyNum.

Local Open Scope Q_scope.

(** Rounding of a rational to the nearest integer, ties to the even
    neighbour (the rule of Python's [round]). *)
Definition round_half_even (y : Q) : Z :=
  let f := Qfloor y in
  let r := y - inject_Z f in
  match Qcompare r (1 # 2) with
  | Lt => f
  | Gt => (f + 1)%Z
  | Eq => if Z.even f then f else (f + 1)%Z
  end.

(** [10 ** n]. *)
Definition pow10 (n : nat) : positive := Nat.iter n (Pos.mul 10) 1%positive.

(** [round(x, n)] for [n] decimal places. *)
Definition round (x : Q) (n : nat) : Q :=
  round_half_even (x * inject_Z (Zpos (pow10 n))) # pow10 n.

(** [max(a, b)] on floats. *)
Definition max (a b : Q) : Q := if Qle_bool b a then a else b.

End PyNum.

(** ** Effects: the object store, the random source and exceptions *)

(** A [dict] from field names to floats, as the stat templates are. *)
Abbreviation Dict := (gmap string Q).

(** The address of a [dict] object. *)
Abbreviation loc := nat.

Inductive exn := ValueError | KeyError | IndexError.

(** The state a call runs in: the [dict] objects allocated so far, and
    the random source with the number of draws already consumed. *)
Record World := mkWorld {
  heap : list Dict;
  source : nat -> N;
  drawn : nat
}.

Inductive result (A : Type) :=
| Ok (a : A) (w : World)
| Raise (e : exn).
Arguments Ok {A} a w.
Arguments Raise {A} e.

Definition M (A : Type) : Type := World -> result A.

Definition ret {A} (a : A) : M A := fun w => Ok a w.

Definition bind {A B} (k : A -> M B) (m : M A) : M B :=
  fun w => match m w with
           | Ok a w' => k a w'
           | Raise e => Raise e
           end.

Definition raise {A} (e : exn) : M A := fun _ => Raise e.

#[export] Instance M_ret : MRet M := @ret.
#[export] Instance M_bind : MBind M := @bind.

(** A [for] loop over a list that threads an accumulator. *)
Fixpoint for_each {A S} (l : list A) (body : A -> S -> M S) (s : S) : M S :=
  match l with
  | [] => ret s
  | x :: l' => s' ← body x s; for_each l' body s'
  end.

Module Random.

(** The next raw draw of the source. *)
Definition next : M N :=
  fun w => Ok (source w (drawn w)) (mkWorld (heap w) (source w) (S (drawn w))).

(** [random.random()]: a float in [[0, 1)] with 53 bits. *)
Definition random : M Q :=
  r ← next; ret (Z.of_N (r mod 2 ^ 53) # 2 ^ 53)%Q.

(** [random.uniform(a, b)] is [a + (b - a) * random()]. *)
Definition uniform (a b : Q) : M Q :=
  u ← random; ret (a + (b - a) * u)%Q.

(** [random.randint(a, b)]: an integer of [[a, b]]; an empty range is a
    [ValueError]. *)
Definition randint (a b : Z) : M Z :=
  if b <? a then raise ValueError
  else r ← next; ret (a + Z.of_N r mod (b - a + 1)).

(** [random.choice(seq)]: an element of [seq]; an empty one is an
    [IndexError]. *)
Definition choice {A} (l : list A) : M A :=
  match l with
  | [] => raise IndexError
  | x :: _ => r ← next; ret (nth (N.to_nat (r mod N.of_nat (length l))) l x)
  end.

End Random.

Module Store.

(** Evaluating a [dict] literal allocates a new object. *)
Definition alloc (d : Dict) : M loc :=
  fun w => Ok (length (heap w)) (mkWorld (heap w ++ [d]) (source w) (drawn w)).

Definition load (l : loc) : M Dict :=
  fun w => match heap w !! l with
           | Some d => Ok d w
           | None => Raise KeyError
           end.

(** [d[k]]. *)
Definition getitem (l : loc) (k : string) : M Q :=
  d ← load l;
  match d !! k with
  | Some v => ret v
  | None => raise KeyError
  end.

(** [d.get(k, default)]. *)
Definition get (l : loc) (k : string) (default : Q) : M Q :=
  d ← load l; ret (match d !! k with Some v => v | None => default end).

Definition store (l : loc) (d : Dict) : M unit :=
  fun w => Ok tt (mkWorld (<[l := d]> (heap w)) (source w) (drawn w)).

(** [d[k] = v]. *)
Definition setitem (l : loc) (k : string) (v : Q) : M unit :=
  d ← load l; store l (<[k := v]> d).

(** [d[k] *= c]. *)
Definition mulitem (l : loc) (k : string) (c : Q) : M unit :=
  v ← getitem l k; setitem l k (v * c)%Q.

End Store.

(** ** The generator ([nba_ingest.py]): static tables *)

Record TeamInfo := mkTeamInfo {
  ti_name : string;
  ti_city : string;
  ti_conference : string;
  ti_division : string
}.

Record PlayerInfo := mkPlayerInfo {
  pi_name : string;
  pi_position : string;
  pi_teams : list string;
  pi_era : string
}.

(** The three tables [__init__] stores on the ingester; no method
    assigns to them afterwards. A [dict] literal keeps the order in
    which its keys are written. *)
Definition historical_teams : list (string * TeamInfo) := [
  ("ATL", mkTeamInfo "Atlanta Hawks" "Atlanta" "Eastern" "Central");
  ("BOS", mkTeamInfo "Boston Celtics" "Boston" "Eastern" "Atlantic");
  ("CHI", mkTeamInfo "Chicago Bulls" "Chicago" "Eastern" "Central");
  ("CLE", mkTeamInfo "Cleveland Cavaliers" "Cleveland" "Eastern" "Central");
  ("DAL", mkTeamInfo "Dallas Mavericks" "Dallas" "Western" "Midwest");
  ("DEN", mkTeamInfo "Denver Nuggets" "Denver" "Western" "Midwest");
  ("DET", mkTeamInfo "Detroit Pistons" "Detroit" "Eastern" "Central");
  ("GSW", mkTeamInfo "Golden State Warriors" "San Francisco" "Western" "Pacific");
  ("HOU", mkTeamInfo "Houston Rockets" "Houston" "Western" "Midwest");
  ("IND", mkTeamInfo "Indiana Pacers" "Indianapolis" "Eastern" "Central");
  ("LAC", mkTeamInfo "LA Clippers" "Los Angeles" "Western" "Pacific");
  ("LAL", mkTeamInfo "Los Angeles Lakers" "Los Angeles" "Western" "Pacific");
  ("MIA", mkTeamInfo "Miami Heat" "Miami" "Eastern" "Atlantic");
  ("MIL", mkTeamInfo "Milwaukee Bucks" "Milwaukee" "Eastern" "Central");
  ("NJN", mkTeamInfo "New Jersey Nets" "East Rutherford" "Eastern" "Atlantic");
  ("NYK", mkTeamInfo "New York Knicks" "New York" "Eastern" "Atlantic");
  ("ORL", mkTeamInfo "Orlando Magic" "Orlando" "Eastern" "Atlantic");
  ("PHI", mkTeamInfo "Philadelphia 76ers" "Philadelphia" "Eastern" "Atlantic");
  ("PHX", mkTeamInfo "Phoenix Suns" "Phoenix" "Western" "Pacific");
  ("POR", mkTeamInfo "Portland Trail Blazers" "Portland" "Western" "Pacific");
  ("SAC", mkTeamInfo "Sacramento Kings" "Sacramento" "Western" "Pacific");
  ("SAS", mkTeamInfo "San Antonio Spurs" "San Antonio" "Western" "Midwest");
  ("SEA", mkTeamInfo "Seattle SuperSonics" "Seattle" "Western" "Pacific");
  ("UTA", mkTeamInfo "Utah Jazz" "Salt Lake City" "Western" "Midwest");
  ("WAS", mkTeamInfo "Washington Bullets" "Washington" "Eastern" "Atlantic")
].

Definition modern_teams : list (string * TeamInfo) := [
  ("ATL", mkTeamInfo "Atlanta Hawks" "Atlanta" "Eastern" "Southeast");
  ("BOS", mkTeamInfo "Boston Celtics" "Boston" "Eastern" "Atlantic");
  ("BKN", mkTeamInfo "Brooklyn Nets" "Brooklyn" "Eastern" "Atlantic");
  ("CHA", mkTeamInfo "Charlotte Hornets" "Charlotte" "Eastern" "Southeast");
  ("CHI", mkTeamInfo "Chicago Bulls" "Chicago" "Eastern" "Central");
  ("CLE", mkTeamInfo "Cleveland Cavaliers" "Cleveland" "Eastern" "Central");
  ("DAL", mkTeamInfo "Dallas Mavericks" "Dallas" "Western" "Southwest");
  ("DEN", mkTeamInfo "Denver Nuggets" "Denver" "Western" "Northwest");
  ("DET", mkTeamInfo "Detroit Pistons" "Detroit" "Eastern" "Central");
  ("GSW", mkTeamInfo "Golden State Warriors" "San Francisco" "Western" "Pacific");
  ("HOU", mkTeamInfo "Houston Rockets" "Houston" "Western" "Southwest");
  ("IND", mkTeamInfo "Indiana Pacers" "Indianapolis" "Eastern" "Central");
  ("LAC", mkTeamInfo "LA Clippers" "Los Angeles" "Western" "Pacific");
  ("LAL", mkTeamInfo "Los Angeles Lakers" "Los Angeles" "Western" "Pacific");
  ("MEM", mkTeamInfo "Memphis Grizzlies" "Memphis" "Western" "Southwest");
  ("MIA", mkTeamInfo "Miami Heat" "Miami" "Eastern" "Southeast");
  ("MIL", mkTeamInfo "Milwaukee Bucks" "Milwaukee" "Eastern" "Central");
  ("MIN", mkTeamInfo "Minnesota Timberwolves" "Minneapolis" "Western" "Northwest");
  ("NOP", mkTeamInfo "New Orleans Pelicans" "New Orleans" "Western" "Southwest");
  ("NYK", mkTeamInfo "New York Knicks" "New York" "Eastern" "Atlantic");
  ("OKC", mkTeamInfo "Oklahoma City Thunder" "Oklahoma City" "Western" "Northwest");
  ("ORL", mkTeamInfo "Orlando Magic" "Orlando" "Eastern" "Southeast");
  ("PHI", mkTeamInfo "Philadelphia 76ers" "Philadelphia" "Eastern" "Atlantic");
  ("PHX", mkTeamInfo "Phoenix Suns" "Phoenix" "Western" "Pacific");
  ("POR", mkTeamInfo "Portland Trail Blazers" "Portland" "Western" "Northwest");
  ("SAC", mkTeamInfo "Sacramento Kings" "Sacramento" "Western" "Pacific");
  ("SAS", mkTeamInfo "San Antonio Spurs" "San Antonio" "Western" "Southwest");
  ("TOR", mkTeamInfo "Toronto Raptors" "Toronto" "Eastern" "Atlantic");
  ("UTA", mkTeamInfo "Utah Jazz" "Salt Lake City" "Western" "Northwest");
  ("WAS", mkTeamInfo "Washington Wizards" "Washington" "Eastern" "Southeast")
].

Definition legendary_players : list (string * list PlayerInfo) := [
  ("1980s", [
    mkPlayerInfo "Magic Johnson" "PG" ["LAL"] "1980s";
    mkPlayerInfo "Larry Bird" "SF" ["BOS"] "1980s";
    mkPlayerInfo "Kareem Abdul-Jabbar" "C" ["LAL"] "1980s";
    mkPlayerInfo "Isiah Thomas" "PG" ["DET"] "1980s";
    mkPlayerInfo "Dominique Wilkins" "SF" ["ATL"] "1980s";
    mkPlayerInfo "Julius Erving" "SF" ["PHI"] "1980s";
    mkPlayerInfo "Moses Malone" "C" ["PHI"] "1980s";
    mkPlayerInfo "James Worthy" "SF" ["LAL"] "1980s"
  ]);
  ("1990s", [
    mkPlayerInfo "Michael Jordan" "SG" ["CHI"] "1990s";
    mkPlayerInfo "Scottie Pippen" "SF" ["CHI"] "1990s";
    mkPlayerInfo "Dennis Rodman" "PF" ["CHI"; "DET"] "1990s";
    mkPlayerInfo "Karl Malone" "PF" ["UTA"] "1990s";
    mkPlayerInfo "John Stockton" "PG" ["UTA"] "1990s";
    mkPlayerInfo "Hakeem Olajuwon" "C" ["HOU"] "1990s";
    mkPlayerInfo "Charles Barkley" "PF" ["PHI"; "PHX"] "1990s";
    mkPlayerInfo "Patrick Ewing" "C" ["NYK"] "1990s";
    mkPlayerInfo "David Robinson" "C" ["SAS"] "1990s";
    mkPlayerInfo "Clyde Drexler" "SG" ["POR"; "HOU"] "1990s"
  ]);
  ("2000s", [
    mkPlayerInfo "Tim Duncan" "PF" ["SAS"] "2000s";
    mkPlayerInfo "Kobe Bryant" "SG" ["LAL"] "2000s";
    mkPlayerInfo "Shaquille O'Neal" "C" ["LAL"; "MIA"] "2000s";
    mkPlayerInfo "LeBron James" "SF" ["CLE"] "2000s";
    mkPlayerInfo "Dwyane Wade" "SG" ["MIA"] "2000s";
    mkPlayerInfo "Kevin Garnett" "PF" ["MIN"; "BOS"] "2000s";
    mkPlayerInfo "Dirk Nowitzki" "PF" ["DAL"] "2000s";
    mkPlayerInfo "Steve Nash" "PG" ["PHX"] "2000s";
    mkPlayerInfo "Tracy McGrady" "SG" ["HOU"] "2000s";
    mkPlayerInfo "Vince Carter" "SG" ["TOR"] "2000s"
  ]);
  ("2010s", [
    mkPlayerInfo "LeBron James" "SF" ["MIA"; "CLE"; "LAL"] "2010s";
    mkPlayerInfo "Stephen Curry" "PG" ["GSW"] "2010s";
    mkPlayerInfo "Kevin Durant" "SF" ["OKC"; "GSW"] "2010s";
    mkPlayerInfo "Russell Westbrook" "PG" ["OKC"] "2010s";
    mkPlayerInfo "James Harden" "SG" ["HOU"] "2010s";
    mkPlayerInfo "Chris Paul" "PG" ["LAC"; "HOU"] "2010s";
    mkPlayerInfo "Anthony Davis" "PF" ["NOP"; "LAL"] "2010s";
    mkPlayerInfo "Kawhi Leonard" "SF" ["SAS"; "TOR"; "LAC"] "2010s";
    mkPlayerInfo "Paul George" "SF" ["IND"; "OKC"; "LAC"] "2010s";
    mkPlayerInfo "Blake Griffin" "PF" ["LAC"; "DET"] "2010s"
  ]);
  ("2020s", [
    mkPlayerInfo "LeBron James" "SF" ["LAL"] "2020s";
    mkPlayerInfo "Stephen Curry" "PG" ["GSW"] "2020s";
    mkPlayerInfo "Kevin Durant" "SF" ["BKN"; "PHX"] "2020s";
    mkPlayerInfo "Giannis Antetokounmpo" "PF" ["MIL"] "2020s";
    mkPlayerInfo "Luka Doncic" "PG" ["DAL"] "2020s";
    mkPlayerInfo "Jayson Tatum" "SF" ["BOS"] "2020s";
    mkPlayerInfo "Nikola Jokic" "C" ["DEN"] "2020s";
    mkPlayerInfo "Joel Embiid" "C" ["PHI"] "2020s";
    mkPlayerInfo "Anthony Davis" "PF" ["LAL"] "2020s";
    mkPlayerInfo "Jimmy Butler" "SF" ["MIA"] "2020s"
  ])
].

(** [d[k]] on an association list. *)
Fixpoint assoc {V} (k : string) (d : list (string * V)) : option V :=
  match d with
  | [] => None
  | (k', v) :: d' => if String.eqb k' k then Some v else assoc k d'
  end.

(** [self.legendary_players[era]]; the five keys read below are all in
    the table. *)
Definition legendary_of (era : string) : list PlayerInfo :=
  default [] (assoc era legendary_players).

(** ** The generator: era lookups *)

Definition get_teams_for_era (year : Z) : list (string * TeamInfo) :=
  if year <? 2000 then historical_teams else modern_teams.

(** [a <= year <= b]. *)
Definition between (a year b : Z) : bool := (a <=? year) && (year <=? b).

Definition get_players_for_era (year : Z) : list PlayerInfo :=
  let players := [] in
  let players :=
    if between 1980 year 1989 then players ++ legendary_of "1980s" else players in
  let players :=
    if between 1990 year 1999 then players ++ legendary_of "1990s" else players in
  let players :=
    if between 2000 year 2009 then players ++ legendary_of "2000s" else players in
  let players :=
    if between 2010 year 2019 then players ++ legendary_of "2010s" else players in
  let players :=
    if between 2020 year 2025 then players ++ legendary_of "2020s" else players in
  players.

(** The career timeline of the players who changed teams; everyone else
    gets the first of the possible teams ([possible_teams[0]], an
    [IndexError] on an empty list). *)
Definition _get_team_for_player
    (player_name : string) (possible_teams : list string) (year : Z) : M string :=
  if String.eqb player_name "LeBron James" then
    if year <=? 2010 then mret "CLE"
    else if between 2011 year 2014 then mret "MIA"
    else if between 2015 year 2018 then mret "CLE"
    else mret "LAL"
  else if String.eqb player_name "Kevin Durant" then
    if year <=? 2016 then mret "OKC"
    else if between 2017 year 2019 then mret "GSW"
    else if between 2020 year 2022 then mret "BKN"
    else mret "PHX"
  else if String.eqb player_name "Shaquille O'Neal" then
    if year <=? 1996 then mret "ORL"
    else if between 1997 year 2004 then mret "LAL"
    else if between 2005 year 2008 then mret "MIA"
    else mret "PHX"
  else if String.eqb player_name "Dennis Rodman" then
    if year <=? 1993 then mret "DET" else mret "CHI"
  else if String.eqb player_name "Charles Barkley" then
    if year <=? 1992 then mret "PHI" else mret "PHX"
  else if String.eqb player_name "Clyde Drexler" then
    if year <=? 1995 then mret "POR" else mret "HOU"
  else if String.eqb player_name "Russell Westbrook" then
    if year <=? 2019 then mret "OKC"
    else if between 2020 year 2021 then mret "HOU"
    else if between 2022 year 2023 then mret "LAL"
    else mret "LAC"
  else if String.eqb player_name "James Harden" then
    if year <=? 2012 then mret "OKC"
    else if between 2013 year 2020 then mret "HOU"
    else if between 2021 year 2022 then mret "BKN"
    else if between 2023 year 2024 then mret "PHI"
    else mret "LAC"
  else if String.eqb player_name "Chris Paul" then
    if year <=? 2011 then mret "NOP"
    else if between 2012 year 2017 then mret "LAC"
    else if between 2018 year 2021 then mret "HOU"
    else if between 2022 year 2023 then mret "PHX"
    else mret "GSW"
  else if String.eqb player_name "Anthony Davis" then
    if year <=? 2019 then mret "NOP" else mret "LAL"
  else if String.eqb player_name "Kawhi Leonard" then
    if year <=? 2018 then mret "SAS"
    else if year =? 2019 then mret "TOR"
    else mret "LAC"
  else if String.eqb player_name "Paul George" then
    if year <=? 2017 then mret "IND"
    else if between 2018 year 2019 then mret "OKC"
    else mret "LAC"
  else if String.eqb player_name "Blake Griffin" then
    if year <=? 2018 then mret "LAC" else mret "DET"
  else if String.eqb player_name "Kevin Garnett" then
    if year <=? 2007 then mret "MIN" else mret "BOS"
  else if String.eqb player_name "Damian Lillard" then
    if year <=? 2023 then mret "POR" else mret "MIL"
  else
    match possible_teams with
    | t :: _ => mret t
    | [] => raise IndexError
    end.

(** ** The generator: statistic synthesis *)

(** The values of the [dict] that [_generate_era_appropriate_stats]
    returns, in the order of its keys. *)
Record StatLine := mkStatLine {
  games_played : Z;
  games_started : Z;
  minutes_per_game : Q;
  field_goals_made : Q;
  field_goals_attempted : Q;
  field_goal_percentage : Q;
  three_pointers_made : Q;
  three_pointers_attempted : Q;
  three_point_percentage : Q;
  free_throws_made : Q;
  free_throws_attempted : Q;
  free_throw_percentage : Q;
  offensive_rebounds : Q;
  defensive_rebounds : Q;
  total_rebounds : Q;
  assists : Q;
  steals : Q;
  blocks : Q;
  turnovers : Q;
  personal_fouls : Q;
  points : Q
}.

Local Open Scope Q_scope.

(** The literal of [position_bases], as written in the function. *)
Definition position_bases_literal : list (string * list (string * Q)) := [
  ("PG", [("points", 12); ("assists", 6); ("rebounds", 3); ("steals", 1.2)]);
  ("SG", [("points", 14); ("assists", 3); ("rebounds", 4); ("steals", 1.0)]);
  ("SF", [("points", 13); ("assists", 3); ("rebounds", 5); ("steals", 1.1)]);
  ("PF", [("points", 12); ("assists", 2); ("rebounds", 7); ("blocks", 0.8)]);
  ("C", [("points", 11); ("assists", 1); ("rebounds", 8); ("blocks", 1.2)])
].

(** The literal of [era_multipliers], as written in the function. *)
Definition era_multipliers_literal : list (string * list (string * Q)) := [
  ("1980s", [("points", 0.9); ("assists", 1.1); ("rebounds", 1.0); ("three_pct", 0.3)]);
  ("1990s", [("points", 1.0); ("assists", 1.0); ("rebounds", 1.0); ("three_pct", 0.4)]);
  ("2000s", [("points", 1.0); ("assists", 1.0); ("rebounds", 1.0); ("three_pct", 0.5)]);
  ("2010s", [("points", 1.1); ("assists", 1.0); ("rebounds", 0.95); ("three_pct", 0.7)]);
  ("2020s", [("points", 1.2); ("assists", 1.1); ("rebounds", 0.9); ("three_pct", 0.8)]);
  ("regular", [("points", 1.0); ("assists", 1.0); ("rebounds", 1.0); ("three_pct", 0.5)])
].

(** Evaluating a literal [{k: {...}, ...}]: every inner [dict] becomes a
    new object and the outer one maps each key to its address. *)
Fixpoint eval_table (t : list (string * list (string * Q))) : M (list (string * loc)) :=
  match t with
  | [] => mret []
  | (k, fields) :: t' =>
      l ← Store.alloc (list_to_map fields);
      rest ← eval_table t';
      mret ((k, l) :: rest)
  end.

(** [table.get(k, table[fallback])]: the default is evaluated first, and
    is a [KeyError] when the fallback key is missing. *)
Definition table_get (table : list (string * loc)) (k fallback : string) : M loc :=
  match assoc fallback table with
  | None => raise KeyError
  | Some d => mret (default d (assoc k table))
  end.

(** [x in [...]] for a list of names. *)
Definition name_in (x : string) (l : list string) : bool :=
  existsb (String.eqb x) l.

(** The first half of [_generate_era_appropriate_stats]: the two tables
    are built, [base] and [era_mult] are taken from them, and the
    adjustments for the year and for the named superstars are written
    into these two objects. *)
Definition adjusted_templates
    (player_name position : string) (year : Z) (era : string) : M (loc * loc) :=
  position_bases ← eval_table position_bases_literal;
  base ← table_get position_bases position "SF";
  era_multipliers ← eval_table era_multipliers_literal;
  era_mult ← table_get era_multipliers era "regular";
  (if (2020 <=? year)%Z then
     Store.mulitem era_mult "points" 1.2;;
     Store.setitem era_mult "three_pct" 0.8
   else mret tt);;
  (if name_in player_name ["Michael Jordan"; "LeBron James"; "Kobe Bryant"; "Kevin Durant";
                           "Giannis Antetokounmpo"; "Luka Doncic"]%string then
     Store.mulitem base "points" 2.0;;
     Store.mulitem base "assists" 1.5;;
     Store.mulitem base "rebounds" 1.3
   else if name_in player_name ["Magic Johnson"; "Stephen Curry"; "Damian Lillard";
                                "Trae Young"]%string then
     Store.mulitem base "assists" 2.0;;
     Store.mulitem base "points" 1.7
   else if name_in player_name ["Shaquille O'Neal"; "Hakeem Olajuwon"; "David Robinson";
                                "Nikola Jokic"; "Joel Embiid"]%string then
     Store.mulitem base "rebounds" 1.6;;
     b ← Store.get base "blocks" 0;
     Store.setitem base "blocks" (b * 2.5);;
     Store.mulitem base "points" 1.5
   else if name_in player_name ["Dennis Rodman"; "Ben Wallace"]%string then
     Store.mulitem base "rebounds" 2.5;;
     Store.mulitem base "points" 0.7
   else mret tt);;
  mret (base, era_mult).

(** The second half: the random draws and the returned [dict]. *)
Definition draw_stats (base era_mult : loc) : M StatLine :=
  games_played ← Random.randint 65 82;
  base_points ← Store.getitem base "points";
  mult_points ← Store.getitem era_mult "points";
  u_points ← Random.uniform 0.8 1.4;
  let points := PyNum.max 0.1 (base_points * mult_points * u_points) in
  base_assists ← Store.getitem base "assists";
  mult_assists ← Store.getitem era_mult "assists";
  u_assists ← Random.uniform 0.7 1.4;
  let assists := PyNum.max 0.1 (base_assists * mult_assists * u_assists) in
  base_rebounds ← Store.getitem base "rebounds";
  mult_rebounds ← Store.getitem era_mult "rebounds";
  u_rebounds ← Random.uniform 0.8 1.3;
  let rebounds := PyNum.max 0.1 (base_rebounds * mult_rebounds * u_rebounds) in
  fg_pct ← Random.uniform 0.40 0.55;
  u_three ← Random.uniform 0.25 0.45;
  mult_three ← Store.getitem era_mult "three_pct";
  let three_pct := u_three * mult_three in
  ft_pct ← Random.uniform 0.70 0.90;
  games_started ← Random.randint (games_played / 2)%Z games_played;
  minutes ← Random.uniform 25 40;
  base_steals ← Store.get base "steals" 1.0;
  u_steals ← Random.uniform 0.6 1.4;
  base_blocks ← Store.get base "blocks" 0.5;
  u_blocks ← Random.uniform 0.4 2.2;
  u_turnovers ← Random.uniform 1.8 4.2;
  u_fouls ← Random.uniform 1.8 3.8;
  mret {|
    games_played := games_played;
    games_started := games_started;
    minutes_per_game := PyNum.round minutes 1;
    field_goals_made := PyNum.round (points * 0.38) 1;
    field_goals_attempted := PyNum.round ((points * 0.38) / fg_pct) 1;
    field_goal_percentage := PyNum.round fg_pct 3;
    three_pointers_made := PyNum.round (points * 0.15) 1;
    three_pointers_attempted := PyNum.round ((points * 0.15) / three_pct) 1;
    three_point_percentage := PyNum.round three_pct 3;
    free_throws_made := PyNum.round (points * 0.22) 1;
    free_throws_attempted := PyNum.round ((points * 0.22) / ft_pct) 1;
    free_throw_percentage := PyNum.round ft_pct 3;
    offensive_rebounds := PyNum.round (rebounds * 0.25) 1;
    defensive_rebounds := PyNum.round (rebounds * 0.75) 1;
    total_rebounds := PyNum.round rebounds 1;
    assists := PyNum.round assists 1;
    steals := PyNum.round (base_steals * u_steals) 1;
    blocks := PyNum.round (base_blocks * u_blocks) 1;
    turnovers := PyNum.round u_turnovers 1;
    personal_fouls := PyNum.round u_fouls 1;
    points := PyNum.round points 1
  |}.

Definition _generate_era_appropriate_stats
    (player_name position : string) (year : Z) (era : string) : M StatLine :=
  '(base, era_mult) ← adjusted_templates player_name position year era;
  draw_stats base era_mult.

Local Close Scope Q_scope.

(** ** The generator: rows and the generation loop *)

Record TeamRow := mkTeamRow {
  t_team_id : Z;
  t_team_name : string;
  t_team_abbreviation : string;
  t_team_city : string;
  t_conference : string;
  t_division : string;
  t_season : string
}.

Record PlayerRow := mkPlayerRow {
  p_player_id : Z;
  p_player_name : string;
  p_team_id : Z;
  p_team_abbreviation : string;
  p_jersey_number : string;
  p_position : string;
  p_height : string;
  p_weight : string;
  p_age : Z;
  p_college : string;
  p_country : string;
  p_draft_year : Z;
  p_draft_round : Z;
  p_draft_number : Z;
  p_season : string
}.

Record StatRow := mkStatRow {
  s_player_id : Z;
  s_player_name : string;
  s_season : string;
  s_team_id : Z;
  s_team_abbreviation : string;
  s_per_mode : string;
  s_stats : StatLine
}.

(** The local variables of [generate_comprehensive_data] that the loops
    update. *)
Record Gen := mkGen {
  all_teams : list TeamRow;
  all_players : list PlayerRow;
  all_stats : list StatRow;
  team_id_counter : Z;
  player_id_counter : Z
}.

(** The team rows of one season: one per entry of [teams_dict], in its
    order, numbered from [next_id]. *)
Fixpoint create_teams (teams_dict : list (string * TeamInfo)) (season : string)
    (g : Gen) : Gen :=
  match teams_dict with
  | [] => g
  | (abbrev, team_info) :: rest =>
      create_teams rest season
        (mkGen (all_teams g ++
                  [mkTeamRow (team_id_counter g) (ti_name team_info) abbrev
                     (ti_city team_info) (ti_conference team_info)
                     (ti_division team_info) season])
               (all_players g) (all_stats g)
               (team_id_counter g + 1) (player_id_counter g))
  end.

(** The search loop over [all_teams]: the id of the first row with this
    abbreviation and season, [None] when the loop ends without a match. *)
Definition find_team_id (teams : list TeamRow) (team_abbrev season : string) : option Z :=
  t_team_id <$>
    List.find (fun team => String.eqb (t_team_abbreviation team) team_abbrev
                           && String.eqb (t_season team) season) teams.

Definition colleges : list string :=
  ["Duke"; "Kentucky"; "North Carolina"; "UCLA"; "Kansas"; "Michigan State"].
Definition countries : list string :=
  ["USA"; "Canada"; "France"; "Germany"; "Australia"; "Spain"].
Definition first_names : list string :=
  ["Alex"; "Marcus"; "Devin"; "Tyler"; "Jordan"; "Mason"; "Logan"; "Ethan"; "Noah";
   "Liam"; "James"; "Michael"; "David"; "Chris"; "Kevin"].
Definition last_names : list string :=
  ["Johnson"; "Williams"; "Brown"; "Jones"; "Garcia"; "Miller"; "Davis"; "Rodriguez";
   "Martinez"; "Wilson"; "Smith"; "Anderson"; "Taylor"; "Thomas"; "Jackson"].

(** The player record, the stat record and the counter increment that
    both player loops share; [age_lo] is 22 for the legendary players
    and 20 for the others. The draws are taken in the order in which the
    [dict] literal evaluates its values. *)
Definition add_player (player_name position team_abbrev : string) (team_id : Z)
    (age_lo age_hi : Z) (year : Z) (season era : string) (g : Gen) : M Gen :=
  jersey ← Random.randint 0 99;
  feet ← Random.randint 6 7;
  inches ← Random.randint 0 11;
  weight ← Random.randint 180 280;
  age ← Random.randint age_lo age_hi;
  college ← Random.choice colleges;
  country ← Random.choice countries;
  draft_year ← Random.randint (Z.max 1975 (year - 20)) year;
  draft_round ← Random.randint 1 2;
  draft_number ← Random.randint 1 60;
  let player :=
    mkPlayerRow (player_id_counter g) player_name team_id team_abbrev
      (PyStr.str jersey) position (PyStr.str feet +:+ "-" +:+ PyStr.str inches)
      (PyStr.str weight) age college country draft_year draft_round draft_number
      season in
  stats ← _generate_era_appropriate_stats player_name position year era;
  let stat :=
    mkStatRow (player_id_counter g) player_name season team_id team_abbrev
      "PerGame" stats in
  mret (mkGen (all_teams g) (all_players g ++ [player]) (all_stats g ++ [stat])
          (team_id_counter g) (player_id_counter g + 1)).

(** The body of the loop over the legendary players. *)
Definition add_legendary (year : Z) (season : string) (player_info : PlayerInfo)
    (g : Gen) : M Gen :=
  team_abbrev ← _get_team_for_player (pi_name player_info) (pi_teams player_info) year;
  match find_team_id (all_teams g) team_abbrev season with
  | None => mret g
  | Some team_id =>
      add_player (pi_name player_info) (pi_position player_info) team_abbrev team_id
        22 38 year season (pi_era player_info) g
  end.

(** The body of the loop over the additional random players. *)
Definition add_extra (teams_dict : list (string * TeamInfo)) (year : Z)
    (season : string) (i : Z) (g : Gen) : M Gen :=
  first ← Random.choice first_names;
  last ← Random.choice last_names;
  let player_name := first +:+ " " +:+ last in
  position ← Random.choice ["PG"; "SG"; "SF"; "PF"; "C"];
  team_abbrev ← Random.choice (map fst teams_dict);
  match find_team_id (all_teams g) team_abbrev season with
  | None => mret g
  | Some team_id =>
      add_player player_name position team_abbrev team_id 20 35 year season "regular" g
  end.

(** The body of the loop over [self.seasons]. *)
Definition process_season (season : string) (g : Gen) : M Gen :=
  match PyStr.int (PyStr.split_head "-" season) with
  | None => raise ValueError
  | Some year =>
      let teams_dict := get_teams_for_era year in
      let g := create_teams teams_dict season g in
      g ← for_each (get_players_for_era year) (add_legendary year season) g;
      num_extra_players ← Random.randint 40 80;
      for_each (py_range 0 num_extra_players) (add_extra teams_dict year season) g
  end.

(** [DataFrame.drop_duplicates(subset=...)]: of the rows with the same
    key, the first one is kept. *)
Fixpoint drop_duplicates_from {A K} `{EqDecision K} (key : A -> K) (seen : list K)
    (rows : list A) : list A :=
  match rows with
  | [] => []
  | r :: rows' =>
      if bool_decide (key r ∈ seen) then drop_duplicates_from key seen rows'
      else r :: drop_duplicates_from key (key r :: seen) rows'
  end.

Definition drop_duplicates {A K} `{EqDecision K} (key : A -> K) (rows : list A) : list A :=
  drop_duplicates_from key [] rows.

(** The ingester object: the fields [__init__] sets from its arguments. *)
Record Ingester := mkIngester {
  start_year : Z;
  end_year : Z;
  self_seasons : list string
}.

Definition init (start_year end_year : Z) : Ingester :=
  mkIngester start_year end_year (seasons start_year end_year).

(** The three data frames that the generator returns. *)
Record Frames := mkFrames {
  teams_df : list TeamRow;
  players_df : list PlayerRow;
  stats_df : list StatRow
}.

Definition generate_comprehensive_data (self : Ingester) : M Frames :=
  g ← for_each (self_seasons self) process_season (mkGen [] [] [] 1 1);
  mret (mkFrames
          (drop_duplicates (fun t => (t_team_id t, t_season t)) (all_teams g))
          (drop_duplicates (fun p => (p_player_id p, p_season p)) (all_players g))
          (all_stats g)).


(** ** The generator: [save_data] *)

(** A cell of a data frame. [CNaN] is a missing value. *)
Inductive cell := CInt (z : Z) | CFloat (q : Q) | CStr (s : string) | CNaN.

Record DataFrame := mkDataFrame {
  columns : list string;
  rows : list (list cell)
}.

(** [pd.DataFrame(records)]: the columns are the keys of the records,
    and there are none when the list is empty. *)
Definition data_frame {A} (cols : list string) (cells : A -> list cell)
    (records : list A) : DataFrame :=
  mkDataFrame (match records with [] => [] | _ => cols end) (map cells records).

Definition team_columns : list string :=
  ["team_id"; "team_name"; "team_abbreviation"; "team_city"; "conference";
   "division"; "season"].

Definition team_cells (t : TeamRow) : list cell :=
  [CInt (t_team_id t); CStr (t_team_name t); CStr (t_team_abbreviation t);
   CStr (t_team_city t); CStr (t_conference t); CStr (t_division t);
   CStr (t_season t)].

Definition player_columns : list string :=
  ["player_id"; "player_name"; "team_id"; "team_abbreviation"; "jersey_number";
   "position"; "height"; "weight"; "age"; "college"; "country"; "draft_year";
   "draft_round"; "draft_number"; "season"].

Definition player_cells (p : PlayerRow) : list cell :=
  [CInt (p_player_id p); CStr (p_player_name p); CInt (p_team_id p);
   CStr (p_team_abbreviation p); CStr (p_jersey_number p); CStr (p_position p);
   CStr (p_height p); CStr (p_weight p); CInt (p_age p); CStr (p_college p);
   CStr (p_country p); CInt (p_draft_year p); CInt (p_draft_round p);
   CInt (p_draft_number p); CStr (p_season p)].

Definition stat_columns : list string :=
  ["player_id"; "player_name"; "season"; "team_id"; "team_abbreviation"; "per_mode";
   "games_played"; "games_started"; "minutes_per_game"; "field_goals_made";
   "field_goals_attempted"; "field_goal_percentage"; "three_pointers_made";
   "three_pointers_attempted"; "three_point_percentage"; "free_throws_made";
   "free_throws_attempted"; "free_throw_percentage"; "offensive_rebounds";
   "defensive_rebounds"; "total_rebounds"; "assists"; "steals"; "blocks";
   "turnovers"; "personal_fouls"; "points"].

Definition stat_cells (s : StatRow) : list cell :=
  let l := s_stats s in
  [CInt (s_player_id s); CStr (s_player_name s); CStr (s_season s);
   CInt (s_team_id s); CStr (s_team_abbreviation s); CStr (s_per_mode s);
   CInt (games_played l); CInt (games_started l); CFloat (minutes_per_game l);
   CFloat (field_goals_made l); CFloat (field_goals_attempted l);
   CFloat (field_goal_percentage l); CFloat (three_pointers_made l);
   CFloat (three_pointers_attempted l); CFloat (three_point_percentage l);
   CFloat (free_throws_made l); CFloat (free_throws_attempted l);
   CFloat (free_throw_percentage l); CFloat (offensive_rebounds l);
   CFloat (defensive_rebounds l); CFloat (total_rebounds l); CFloat (assists l);
   CFloat (steals l); CFloat (blocks l); CFloat (turnovers l);
   CFloat (personal_fouls l); CFloat (points l)].

(** A file is what was written to it; [Garbage] stands for bytes that
    are not a table. *)
Inductive File := Csv (df : DataFrame) | Garbage.

(** The files by path. *)
Abbreviation FileSystem := (gmap string File).

(** [df.to_csv(path, index=False)]. *)
Definition to_csv (df : DataFrame) (path : string) (fs : FileSystem) : FileSystem :=
  <[path := Csv df]> fs.

Definition save_data (frames : Frames) (fs : FileSystem) : FileSystem :=
  let teams := data_frame team_columns team_cells (teams_df frames) in
  let players := data_frame player_columns player_cells (players_df frames) in
  let stats := data_frame stat_columns stat_cells (stats_df frames) in
  let fs := to_csv teams "data/teams_all_seasons.csv" fs in
  let fs := to_csv players "data/players_all_seasons.csv" fs in
  let fs := to_csv stats "data/player_season_stats.csv" fs in
  let fs := to_csv teams "data/postgres_ready/teams_all_seasons.csv" fs in
  let fs := to_csv players "data/postgres_ready/players_all_seasons.csv" fs in
  let fs := to_csv stats "data/postgres_ready/player_season_stats.csv" fs in
  fs.

(** ** The loader ([database_loader.py]) *)

(** A table of the [nba] schema holds rows of named cells. *)
Abbreviation Table := (list (list (string * cell))).

(** The tables of the schema by name; a name without an entry is a table
    that was never created. *)
Abbreviation Database := (gmap string Table).

(** The database engine decides whether a frame can be appended to a
    table in its present state (column names, types, keys); the decision
    is a function of what it is given. *)
Record Engine := mkEngine {
  accepts : string -> DataFrame -> Table -> bool
}.

(** What can go wrong with the connection during one run: whether
    [psycopg2.connect] succeeds, whether the statements of
    [create_schema] do, and whether the [TRUNCATE] of a table does. *)
Record Faults := mkFaults {
  connect_ok : bool;
  create_schema_ok : bool;
  truncate_ok : string -> bool
}.

Definition table_of (db : Database) (name : string) : Table :=
  default [] (db !! name).

(** [SELECT COUNT( * )]. *)
Definition count (db : Database) (name : string) : nat :=
  length (table_of db name).

(** [CREATE TABLE IF NOT EXISTS]. *)
Definition create_if_not_exists (name : string) (db : Database) : Database :=
  match db !! name with
  | Some _ => db
  | None => <[name := []]> db
  end.

(** [create_schema] with a live connection ([self.conn] is set by
    [connect], which [load_all_data] calls first). *)
Definition create_schema (faults : Faults) (db : Database) : bool * Database :=
  if create_schema_ok faults then
    (true,
     create_if_not_exists "teams"
       (create_if_not_exists "player_season_stats"
          (create_if_not_exists "players" db)))
  else (false, db).

(** [pd.read_csv]: a missing file, bytes that are no table, and a file
    without a header line raise. *)
Definition read_csv (fs : FileSystem) (csv_file : string) : option DataFrame :=
  match fs !! csv_file with
  | Some (Csv df) => match columns df with [] => None | _ => Some df end
  | Some Garbage => None
  | None => None
  end.

(** [df.empty]. *)
Definition df_empty (df : DataFrame) : bool :=
  match columns df, rows df with
  | [], _ => true
  | _, [] => true
  | _, _ => false
  end.

(** [col.lower().replace(' ', '_').replace('-', '_')]. *)
Definition clean_column (col : string) : string :=
  PyStr.replace_char "-" "_" (PyStr.replace_char " " "_" (PyStr.lower col)).

(** [df.fillna('')]. *)
Definition fillna (c : cell) : cell :=
  match c with
  | CNaN => CStr ""
  | _ => c
  end.

(** [df.to_sql(table_name, if_exists='append', index=False)]: all the
    rows are appended, or none when the engine rejects the insert. *)
Definition to_sql (engine : Engine) (table_name : string) (df : DataFrame)
    (db : Database) : option Database :=
  if accepts engine table_name df (table_of db table_name) then
    Some (<[table_name := table_of db table_name ++ map (zip (columns df)) (rows df)]> db)
  else None.

(** The result of [load_csv_to_table] with the number of rows it
    committed. *)
Definition load_csv_to_table (engine : Engine) (fs : FileSystem)
    (csv_file table_name : string) (db : Database) : bool * nat * Database :=
  match read_csv fs csv_file with
  | None => (false, 0%nat, db)
  | Some df =>
      if df_empty df then (true, 0%nat, db)
      else
        let df := mkDataFrame (map clean_column (columns df)) (rows df) in
        let df := mkDataFrame (columns df) (map (map fillna) (rows df)) in
        match to_sql engine table_name df db with
        | Some db' => (true, length (rows df), db')
        | None => (false, 0%nat, db)
        end
  end.

(** [clear_table]: the [TRUNCATE] empties the table, or raises and is
    caught. *)
Definition clear_table (faults : Faults) (table_name : string) (db : Database)
    : bool * Database :=
  if truncate_ok faults table_name then (true, <[table_name := []]> db)
  else (false, db).

(** [file_mappings], in the order of the literal. *)
Definition file_mappings : list (string * string) :=
  [("players_all_seasons.csv", "players");
   ("player_stats_per_game.csv", "player_season_stats");
   ("player_stats_totals.csv", "player_season_stats");
   ("player_stats_per_36.csv", "player_season_stats");
   ("teams_all_seasons.csv", "teams")].

(** [os.path.join(a, b)] for a relative [b]. *)
Definition ends_with_sep (a : string) : bool :=
  match String.rev a with
  | String c _ => Ascii.eqb c "/"
  | EmptyString => false
  end.

Definition path_join (a b : string) : string :=
  match a with
  | EmptyString => b
  | _ => if ends_with_sep a then a +:+ b else a +:+ "/" +:+ b
  end.

(** One attempt of the loading loop. *)
Record Attempt := mkAttempt {
  a_file : string;
  a_table : string;
  a_ok : bool;
  a_rows : nat
}.

(** The variables of the loading loop. *)
Record LoadState := mkLoadState {
  ls_db : Database;
  success_count : nat;
  total_files : nat;
  attempts : list Attempt
}.

(** The body of [for filename, table_name in file_mappings.items()]. *)
Definition load_file (engine : Engine) (fs : FileSystem) (data_directory : string)
    (entry : string * string) (st : LoadState) : LoadState :=
  let '(filename, table_name) := entry in
  let file_path := path_join data_directory filename in
  match fs !! file_path with
  | Some _ =>
      let '(ok, n, db') := load_csv_to_table engine fs file_path table_name (ls_db st) in
      mkLoadState db' (if ok then S (success_count st) else success_count st)
        (S (total_files st)) (attempts st ++ [mkAttempt file_path table_name ok n])
  | None => st
  end.

(** The loop over [file_mappings.items()]. *)
Definition load_files (engine : Engine) (fs : FileSystem) (data_directory : string)
    (entries : list (string * string)) (st : LoadState) : LoadState :=
  fold_left (fun st entry => load_file engine fs data_directory entry st) entries st.

(** The mapped files that exist in the directory, in the order of the
    mapping. *)
Definition present (fs : FileSystem) (data_directory : string)
    (entries : list (string * string)) : list string :=
  filter (fun p => is_Some (fs !! p))
    (map (fun e => path_join data_directory e.1) entries).

(** The two counters of the loop count the attempts and the successful
    ones. *)
Definition counters_agree (st : LoadState) : Prop :=
  total_files st = length (attempts st) /\
  success_count st = length (filter (fun a => a_ok a = true) (attempts st)).

(** What a run of [load_all_data] returns and leaves behind. *)
Record LoadRun := mkLoadRun {
  overall : bool;
  db_after : Database;
  run_attempts : list Attempt
}.

Definition load_all_data (engine : Engine) (faults : Faults) (fs : FileSystem)
    (data_directory : string) (clear_existing : bool) (db : Database) : LoadRun :=
  if negb (connect_ok faults) then mkLoadRun false db []
  else
    let '(created, db) := create_schema faults db in
    if negb created then mkLoadRun false db []
    else
      let db :=
        if clear_existing then
          fold_left (fun db table => snd (clear_table faults table db))
            ["players"; "player_season_stats"; "teams"] db
        else db in
      let st := load_files engine fs data_directory file_mappings
                  (mkLoadState db 0 0 []) in
      mkLoadRun (success_count st =? total_files st)%nat (ls_db st) (attempts st).

(** Clearing the three tables with every [TRUNCATE] accepted. *)
Definition emptied (db : Database) : Database :=
  <["teams" := []]> (<["player_season_stats" := []]> (<["players" := []]> db)).

(** A run in which the connection, the schema step and the three
    [TRUNCATE] statements all succeed. *)
Definition healthy (faults : Faults) : Prop :=
  connect_ok faults = true /\ create_schema_ok faults = true /\
  truncate_ok faults "players" = true /\
  truncate_ok faults "player_season_stats" = true /\
  truncate_ok faults "teams" = true.

(** ** The orchestrator ([run_complete_pipeline.py]) *)

(** The four commands that [main] hands to [run_command], in order:
    the connection test, [python3 nba_ingest.py],
    [python3 database_loader.py] and the report of the table counts. *)
Inductive Command := ConnectionTest | DataCollection | DatabaseLoading | DataVerification.

(** What [subprocess.run] does with a command: it raises, or the child
    ends with a return code. *)
Definition Shell := Command -> option Z.

Definition run_command (shell : Shell) (command : Command) : bool :=
  match shell command with
  | Some returncode => returncode =? 0
  | None => false
  end.

(** [main]: its return value and the commands it ran. *)
Definition main (shell : Shell) : bool * list Command :=
  if negb (run_command shell ConnectionTest) then (false, [ConnectionTest])
  else if negb (run_command shell DataCollection) then
    (false, [ConnectionTest; DataCollection])
  else if negb (run_command shell DatabaseLoading) then
    (false, [ConnectionTest; DataCollection; DatabaseLoading])
  else
    let _ := run_command shell DataVerification in
    (true, [ConnectionTest; DataCollection; DatabaseLoading; DataVerification]).

(** [sys.exit(0 if success else 1)]. *)
Definition exit_status (shell : Shell) : Z :=
  if fst (main shell) then 0 else 1.

(** ** Sample inputs *)

(** An engine that accepts every insert and a run without faults. *)
Definition permissive : Engine := mkEngine (fun _ _ _ => true).
Definition no_faults : Faults := mkFaults true true (fun _ => true).

(** A run in which every [TRUNCATE] is refused. *)
Definition truncate_refused : Faults := mkFaults true true (fun _ => false).

(** The frames of a very small generation: one team, one player and his
    stat row. *)
Definition sample_frames : Frames :=
  mkFrames
    [mkTeamRow 14 "Los Angeles Lakers" "LAL" "Los Angeles" "Western" "Pacific" "2020-21"]
    [mkPlayerRow 1 "LeBron James" 14 "LAL" "23" "SF" "6-9" "250" 36 "Duke" "USA"
       2003 1 1 "2020-21"]
    [mkStatRow 1 "LeBron James" "2020-21" 14 "LAL" "PerGame"
       (mkStatLine 70 65 34.5 11.4 22.8 0.5 4.5 12.5 0.36 6.6 8.8 0.75 1.2 6.5 7.7
          7.8 1.1 0.6 3.5 1.8 30.0)].

(** A directory with one per-game stat file of a single row, with the
    columns of the generator's stat frame. *)
Definition one_stat_file : FileSystem :=
  {[ "data/player_stats_per_game.csv" :=
       Csv (data_frame stat_columns stat_cells (stats_df sample_frames)) ]}.

(** A shell in which only the last command fails. *)
Definition verification_fails : Shell :=
  fun c => match c with DataVerification => Some 1 | _ => Some 0 end.

(** A shell in which the loader fails. *)
Definition loading_fails : Shell :=
  fun c => match c with DatabaseLoading => Some 1 | _ => Some 0 end.

(** The comparison of the code's season suffix with the format of the
    specification, for one value of [year + 1]. *)
Definition suffix_agrees (n : Z) : bool :=
  String.eqb (PyStr.slice_from 2 (PyStr.str n)) (two_digits (n mod 100)).

(** ** Reasoning about computations *)

(** [hoare partial m post w]: run from [w], [m] returns a value and a
    state that satisfy [post]; when [m] raises, the statement is
    [partial] ([True] for partial correctness, [False] when the run has
    to return). *)
Definition hoare {A} (partial : Prop) (m : M A) (post : A -> World -> Prop)
    (w : World) : Prop :=
  match m w with
  | Ok a w' => post a w'
  | Raise _ => partial
  end.

(** The state after one more draw. *)
Definition advance (w : World) : World :=
  mkWorld (heap w) (source w) (S (drawn w)).

(** The same state with older objects [h] below its own. *)
Definition ext (h : list Dict) (w : World) : World :=
  mkWorld (h ++ heap w) (source w) (drawn w).

Definition lift_result {A B} (f : A -> B) (h : list Dict) (r : result A) : result B :=
  match r with
  | Ok a w => Ok (f a) (ext h w)
  | Raise e => Raise e
  end.

(** [m'] run above the objects [h] does what [m] does without them, the
    addresses in its value moved by [f]. *)
Definition shifts {A B} (h : list Dict) (f : A -> B) (m : M A) (m' : M B) : Prop :=
  forall w, m' (ext h w) = lift_result f h (m w).

(** An address moved above [h]. *)
Definition above (h : list Dict) (l : loc) : loc := (length h + l)%nat.

(** The state a call starts from when no object exists yet. *)
Definition fresh (w : World) : World := mkWorld [] (source w) (drawn w).

(** ** The shooting columns of a stat row *)

(** [attempted] is [made / percentage] up to the three roundings: there
    are an exact made value and an exact percentage, within half a unit
    of the last stored decimal of [made] and [pct], whose quotient is
    within half a unit of the last decimal of [attempted]. *)
Definition within_rounding (made attempted pct : Q) : Prop :=
  exists m p : Q,
    (0 < p)%Q /\ (Qabs (made - m) <= 1 # 20)%Q /\ (Qabs (pct - p) <= 1 # 2000)%Q /\
    (Qabs (attempted - m / p) <= 1 # 20)%Q.

Definition consistent_shooting (l : StatLine) : Prop :=
  (0 < field_goal_percentage l)%Q /\
  (0 < three_point_percentage l)%Q /\
  (0 < free_throw_percentage l)%Q /\
  within_rounding (field_goals_made l) (field_goals_attempted l)
    (field_goal_percentage l) /\
  within_rounding (three_pointers_made l) (three_pointers_attempted l)
    (three_point_percentage l) /\
  within_rounding (free_throws_made l) (free_throws_attempted l)
    (free_throw_percentage l).

(** What [draw_stats] needs of the two objects it reads: the three
    counting keys in both, and a three-point multiplier of at least
    0.3, the smallest entry of the table. *)
Definition templates_ready (h : list Dict) (base era_mult : loc) : Prop :=
  exists db de : Dict,
    h !! base = Some db /\ h !! era_mult = Some de /\
    is_Some (db !! "points") /\ is_Some (db !! "assists") /\
    is_Some (db !! "rebounds") /\
    is_Some (de !! "points") /\ is_Some (de !! "assists") /\
    is_Some (de !! "rebounds") /\
    exists t : Q, de !! "three_pct" = Some t /\ (3 # 10 <= t)%Q.

(** ** The two tables of the statistic synthesis as objects *)

(** The outer [dict] that [eval_table] returns when the next free
    address is [n]. *)
Fixpoint addresses (t : list (string * list (string * Q))) (n : loc)
    : list (string * loc) :=
  match t with
  | [] => []
  | (k, _) :: t' => (k, n) :: addresses t' (S n)
  end.

(** The inner [dict] objects it allocates, in order. *)
Definition objects (t : list (string * list (string * Q))) : list Dict :=
  map (fun e => list_to_map e.2) t.

(** The entry of the literal that [table.get(k, table[fallback])]
    selects. *)
Definition literal_entry (t : list (string * list (string * Q))) (k fallback : string)
    : option (list (string * Q)) :=
  match assoc fallback t with
  | None => None
  | Some d => Some (default d (assoc k t))
  end.

(** The points multiplier that the era table has for [era]. *)
Definition era_points (era : string) : option Q :=
  fields ← literal_entry era_multipliers_literal era "regular";
  assoc "points" fields.

(** A template object has the three counting keys. *)
Definition has_counting_keys (d : Dict) : Prop :=
  is_Some (d !! "points") /\ is_Some (d !! "assists") /\ is_Some (d !! "rebounds").

(** The state with another heap. *)
Definition set_heap (w : World) (h : list Dict) : World :=
  mkWorld h (source w) (drawn w).

(** The part of the state that the adjustments of [base] keep: [base]
    has the counting keys and [era_mult] is the object [de]. *)
Definition base_ready (base era_mult : loc) (de : Dict) (w : World) : Prop :=
  exists db, heap w !! base = Some db /\ has_counting_keys db
             /\ heap w !! era_mult = Some de.

(** ** The generation loop: what each step adds *)

(** The rows that [create_teams] appends, numbered from [next_id]. *)
Fixpoint team_rows (teams_dict : list (string * TeamInfo)) (season : string)
    (next_id : Z) : list TeamRow :=
  match teams_dict with
  | [] => []
  | (abbrev, team_info) :: rest =>
      mkTeamRow next_id (ti_name team_info) abbrev (ti_city team_info)
        (ti_conference team_info) (ti_division team_info) season
      :: team_rows rest season (next_id + 1)
  end.

(** A player row of [season] whose team id is the one the search loop
    finds in [teams] for the row's abbreviation. *)
Definition resolves_in (teams : list TeamRow) (season : string) (p : PlayerRow) : Prop :=
  p_season p = season /\
  find_team_id teams (p_team_abbreviation p) season = Some (p_team_id p).

(** [g'] is [g] after some iterations of the player loops of [season]:
    the teams are the same, and player and stat rows were appended. *)
Definition players_added (season : string) (g g' : Gen) : Prop :=
  all_teams g' = all_teams g /\
  team_id_counter g' = team_id_counter g /\
  exists ps ss,
    all_players g' = all_players g ++ ps /\
    all_stats g' = all_stats g ++ ss /\
    Forall (resolves_in (all_teams g) season) ps /\
    Forall (fun s => consistent_shooting (s_stats s)) ss.

(** The key of the team rows in the claims: abbreviation and season. *)
Definition team_key (t : TeamRow) : string * string :=
  (t_team_abbreviation t, t_season t).

(** The text of the year at the head of a season string: the
    characters before the hyphen that follows the year, a leading minus
    sign kept. *)
Definition year_text (season : string) : string :=
  match season with
  | String c rest =>
      if Ascii.eqb c "-" then String c (PyStr.split_head "-" rest)
      else PyStr.split_head "-" season
  | EmptyString => EmptyString
  end.

(** What holds of the accumulated rows once the seasons [processed]
    are done: the team keys are distinct, every team row belongs to a
    processed season, every player row resolves to a team row of its
    season, and every stat row has consistent shooting columns. *)
Definition run_invariant (processed : list string) (g : Gen) : Prop :=
  NoDup (map team_key (all_teams g)) /\
  (forall t, t ∈ all_teams g -> t_season t ∈ processed) /\
  (forall p, p ∈ all_players g ->
     exists t, t ∈ all_teams g /\ t_team_id t = p_team_id p /\ t_season t = p_season p) /\
  Forall (fun s => consistent_shooting (s_stats s)) (all_stats g).

(** The same of the frames that the generator returns. *)
Definition frames_consistent (frames : Frames) : Prop :=
  NoDup (map team_key (teams_df frames)) /\
  (forall p, p ∈ players_df frames ->
     exists t, t ∈ teams_df frames /\ t_team_id t = p_team_id p
               /\ t_season t = p_season p) /\
  Forall (fun s => consistent_shooting (s_stats s)) (stats_df frames).

(** A state of the random source for the examples. *)
Definition sample_world : World := mkWorld [] (fun n => (N.of_nat n * 7919 + 13)%N) 0.

(** * Properties *)

(** ** Sanity checks of the embedding on concrete inputs *)

Example season_1999 : season_of_year 1999 = "1999-00"%string.
Proof. reflexivity. Qed.

Example season_9999 : season_of_year 9999 = "9999-000"%string.
Proof. reflexivity. Qed.

Example str_zero : PyStr.str 0 = "0"%string.
Proof. reflexivity. Qed.

Example int_empty : PyStr.int "" = None.
Proof. reflexivity. Qed.

Example round_ties : PyNum.round 0.25 1 = (2 # 10)%Q /\ PyNum.round 0.35 1 = (4 # 10)%Q.
Proof. split; reflexivity. Qed.

Example round_down : PyNum.round 2.3449 2 = (234 # 100)%Q.
Proof. reflexivity. Qed.

(** ** The orchestrator *)

(** C2, as the code has it: a failure of the connection test, of the
    data collection or of the database loading ends [main] right after
    that command and the process exits with status 1; when these three
    succeed the verification command is run too and the exit status is 0
    whatever it returns. *)
Theorem pipeline_exit_status (shell : Shell) :
  let ok := run_command shell in
  (ok ConnectionTest = false ->
     main shell = (false, [ConnectionTest]) /\ exit_status shell = 1) /\
  (ok ConnectionTest = true -> ok DataCollection = false ->
     main shell = (false, [ConnectionTest; DataCollection]) /\ exit_status shell = 1) /\
  (ok ConnectionTest = true -> ok DataCollection = true -> ok DatabaseLoading = false ->
     main shell = (false, [ConnectionTest; DataCollection; DatabaseLoading])
     /\ exit_status shell = 1) /\
  (ok ConnectionTest = true -> ok DataCollection = true -> ok DatabaseLoading = true ->
     main shell =
       (true, [ConnectionTest; DataCollection; DatabaseLoading; DataVerification])
     /\ exit_status shell = 0).
Proof.
  cbv zeta. unfold exit_status, main.
  repeat split; intros; repeat match goal with H : run_command _ _ = _ |- _ => rewrite H; clear H end;
    reflexivity.
Qed.

(** C2, as stated, fails at the fourth step: the verification command
    is run, it fails, and the process still exits with status 0. *)
Lemma verification_failure_exits_zero :
  run_command verification_fails DataVerification = false /\
  In DataVerification (snd (main verification_fails)) /\
  exit_status verification_fails = 0.
Proof. repeat split; [right; right; right; left; reflexivity]. Qed.

(** The third step does halt the pipeline. *)
Example loading_failure_halts :
  main loading_fails = (false, [ConnectionTest; DataCollection; DatabaseLoading])
  /\ exit_status loading_fails = 1.
Proof. split; reflexivity. Qed.

(** ** The loader: the loading loop *)

Section LoadingLoop.

Context (engine : Engine) (fs : FileSystem) (data_directory : string).

Lemma load_files_cons e es st :
  load_files engine fs data_directory (e :: es) st
  = load_files engine fs data_directory es (load_file engine fs data_directory e st).
Proof. reflexivity. Qed.

Lemma load_file_counters entry st :
  counters_agree st -> counters_agree (load_file engine fs data_directory entry st).
Proof.
  intros [Ht Hs]. unfold load_file. destruct entry as [filename table_name].
  destruct (fs !! path_join data_directory filename); [|by split].
  destruct (load_csv_to_table _ _ _ _ _) as [[ok n] db'].
  split; cbn [total_files success_count attempts].
  - rewrite length_app. cbn. lia.
  - rewrite filter_app, length_app.
    destruct ok; [rewrite filter_cons_True by done | rewrite filter_cons_False by done];
      cbn; lia.
Qed.

Lemma load_files_counters entries st :
  counters_agree st -> counters_agree (load_files engine fs data_directory entries st).
Proof.
  revert st. induction entries as [|e es IH]; intros st H; [done|].
  rewrite load_files_cons. apply IH, load_file_counters, H.
Qed.

Lemma load_files_attempted entries st :
  map a_file (attempts (load_files engine fs data_directory entries st))
  = map a_file (attempts st) ++ present fs data_directory entries.
Proof.
  revert st. induction entries as [|[f t] es IH]; intros st.
  - cbn. by rewrite app_nil_r.
  - rewrite load_files_cons, IH.
    unfold present. cbn [map fst]. unfold load_file.
    destruct (fs !! path_join data_directory f) eqn:E.
    + destruct (load_csv_to_table _ _ _ _ _) as [[ok n] db'].
      cbn [attempts]. rewrite map_app, <- app_assoc. cbn [map a_file app].
      by rewrite filter_cons_True by (by rewrite E).
    + rewrite filter_cons_False; [done|]. rewrite E. by intros [? ?].
Qed.

End LoadingLoop.

Lemma all_ok_length (l : list Attempt) :
  length (filter (fun a => a_ok a = true) l) = length l <->
  forall a, a ∈ l -> a_ok a = true.
Proof.
  induction l as [|a l IH].
  - split; [intros _ x Hx; by apply elem_of_nil in Hx | done].
  - destruct (a_ok a) eqn:E.
    + rewrite filter_cons_True by done. cbn. split.
      * intros H x Hx. apply elem_of_cons in Hx as [->|Hx]; [done|].
        apply IH; [lia | done].
      * intros H. f_equal. apply IH. intros x Hx. apply H. by right.
    + rewrite filter_cons_False by congruence. split.
      * intros H. pose proof (length_filter (fun a => a_ok a = true) l). cbn in H. lia.
      * intros H. specialize (H a ltac:(by left)). congruence.
Qed.

(** ** The loader: overall result *)

(** C1, as the code has it: [load_all_data] succeeds exactly when the
    connection and the schema step succeed and every attempted file
    loaded; the attempted files are the mapped files that exist in the
    directory, each of them attempted whatever happened to the files
    before it, and a mapped file that is absent is skipped without
    being counted. *)
Theorem load_all_data_overall (engine : Engine) (faults : Faults) (fs : FileSystem)
    (data_directory : string) (clear_existing : bool) (db : Database) :
  let run := load_all_data engine faults fs data_directory clear_existing db in
  (overall run = true <->
     connect_ok faults = true /\ create_schema_ok faults = true /\
     forall a, a ∈ run_attempts run -> a_ok a = true) /\
  (connect_ok faults = true -> create_schema_ok faults = true ->
     map a_file (run_attempts run) = present fs data_directory file_mappings).
Proof.
  cbv zeta. unfold load_all_data, create_schema.
  destruct (connect_ok faults); cbn [negb].
  2:{ split; [split; [discriminate | intros [? _]; discriminate] | discriminate]. }
  destruct (create_schema_ok faults); cbn [negb].
  2:{ split; [split; [discriminate | intros (_ & ? & _); discriminate] | discriminate]. }
  set (db0 := if clear_existing then _ else _).
  cbn [overall run_attempts].
  pose proof (load_files_counters engine fs data_directory file_mappings
                (mkLoadState db0 0 0 []) (conj eq_refl eq_refl)) as [Ht Hs].
  split.
  - rewrite Nat.eqb_eq, Ht, Hs, all_ok_length. split; [by intros H | by intros (_ & _ & H)].
  - intros _ _. by rewrite load_files_attempted.
Qed.

(** C1, as stated, fails on the generator's own output directory: the
    three per-mode stat files are absent, only two of the five mapped
    files are loaded, and the overall result is success. *)
Lemma absent_files_do_not_fail :
  let fs := save_data sample_frames ∅ in
  let run := load_all_data permissive no_faults fs "data" true ∅ in
  fs !! "data/player_stats_per_game.csv" = None /\
  fs !! "data/player_stats_totals.csv" = None /\
  fs !! "data/player_stats_per_36.csv" = None /\
  map a_file (run_attempts run)
    = ["data/players_all_seasons.csv"; "data/teams_all_seasons.csv"] /\
  overall run = true.
Proof. vm_compute. repeat split. Qed.

(** ** The loader: full refresh *)

(** A load writes to the table of its mapping entry only. *)
Lemma load_file_elsewhere engine fs dir entry st (name : string) :
  name <> entry.2 ->
  ls_db (load_file engine fs dir entry st) !! name = ls_db st !! name.
Proof.
  intros Hne. unfold load_file. destruct entry as [f t]. cbn in Hne.
  destruct (fs !! path_join dir f); [|done].
  unfold load_csv_to_table. destruct (read_csv fs _); [|done].
  destruct (df_empty d); [done|]. unfold to_sql.
  destruct (accepts _ _ _ _); [|done]. cbn [ls_db].
  by rewrite lookup_insert_ne.
Qed.

Lemma load_files_elsewhere engine fs dir entries st (name : string) :
  (forall e, e ∈ entries -> name <> e.2) ->
  ls_db (load_files engine fs dir entries st) !! name = ls_db st !! name.
Proof.
  revert st. induction entries as [|e es IH]; intros st H; [done|].
  rewrite load_files_cons, IH.
  - apply load_file_elsewhere, H. by left.
  - intros e' He'. apply H. by right.
Qed.

Lemma emptied_agree (db db' : Database) :
  (forall name : string,
     name <> "players" -> name <> "player_season_stats" -> name <> "teams" ->
     db !! name = db' !! name) ->
  emptied db = emptied db'.
Proof.
  intros H. apply map_eq. intros name. unfold emptied.
  destruct (decide (name = "teams")) as [->|H1]; [by rewrite !lookup_insert_eq|].
  rewrite !(lookup_insert_ne _ "teams") by done.
  destruct (decide (name = "player_season_stats")) as [->|H2];
    [by rewrite !lookup_insert_eq|].
  rewrite !(lookup_insert_ne _ "player_season_stats") by done.
  destruct (decide (name = "players")) as [->|H3]; [by rewrite !lookup_insert_eq|].
  rewrite !(lookup_insert_ne _ "players") by done. by apply H.
Qed.

Lemma table_of_insert_eq (db : Database) (name : string) (rows : Table) :
  table_of (<[name := rows]> db) name = rows.
Proof. unfold table_of. by rewrite lookup_insert_eq. Qed.

Lemma table_of_insert_ne (db : Database) (t name : string) (rows : Table) :
  name <> t -> table_of (<[t := rows]> db) name = table_of db name.
Proof. intros H. unfold table_of. by rewrite lookup_insert_ne. Qed.

Lemma table_of_create_if_not_exists (t name : string) (db : Database) :
  table_of (create_if_not_exists t db) name = table_of db name.
Proof.
  unfold create_if_not_exists. destruct (db !! t) eqn:E; [done|].
  destruct (decide (name = t)) as [->|H].
  - rewrite table_of_insert_eq. unfold table_of. by rewrite E.
  - by rewrite table_of_insert_ne.
Qed.

Lemma create_if_not_exists_elsewhere (t name : string) (db : Database) :
  name <> t -> create_if_not_exists t db !! name = db !! name.
Proof.
  intros H. unfold create_if_not_exists. destruct (db !! t); [done|].
  by rewrite lookup_insert_ne.
Qed.

Lemma healthy_run engine faults fs dir db :
  healthy faults ->
  load_all_data engine faults fs dir true db
  = let st := load_files engine fs dir file_mappings
                (mkLoadState (emptied (create_schema faults db).2) 0 0 []) in
    mkLoadRun (success_count st =? total_files st)%nat (ls_db st) (attempts st).
Proof.
  intros (Hc & Hs & H1 & H2 & H3). unfold load_all_data, create_schema.
  rewrite Hc, Hs. cbn [negb snd fold_left]. unfold clear_table.
  by rewrite H1, H2, H3.
Qed.

Lemma healthy_run_elsewhere engine faults fs dir db (name : string) :
  healthy faults ->
  name <> "players" -> name <> "player_season_stats" -> name <> "teams" ->
  db_after (load_all_data engine faults fs dir true db) !! name = db !! name.
Proof.
  intros H N1 N2 N3. rewrite healthy_run by done. cbv zeta. cbn [db_after].
  rewrite load_files_elsewhere.
  - cbn [ls_db]. unfold emptied. rewrite !lookup_insert_ne by done.
    destruct H as (_ & Hs & _). unfold create_schema. rewrite Hs. cbn [snd].
    by rewrite !create_if_not_exists_elsewhere.
  - intros e He. unfold file_mappings in He.
    repeat (apply elem_of_cons in He as [->|He]; [done|]).
    by apply elem_of_nil in He.
Qed.

(** C10, as the code has it: when the connection, the schema step and
    the three truncations succeed in both runs, the second full-refresh
    load over the same directory leaves each of the three tables with
    the row count the first one left (the two runs end in the same
    database and return the same result). *)
Theorem full_refresh_idempotent (engine : Engine) (first second : Faults)
    (fs : FileSystem) (data_directory : string) (db : Database) :
  healthy first -> healthy second ->
  let run1 := load_all_data engine first fs data_directory true db in
  let run2 := load_all_data engine second fs data_directory true (db_after run1) in
  (forall table, count (db_after run2) table = count (db_after run1) table) /\
  db_after run2 = db_after run1 /\ overall run2 = overall run1.
Proof.
  intros H1 H2. cbv zeta.
  assert (E : emptied (create_schema second
                (db_after (load_all_data engine first fs data_directory true db))).2
              = emptied (create_schema first db).2).
  { apply emptied_agree. intros name N1 N2 N3.
    pose proof H1 as (_ & S1 & _). pose proof H2 as (_ & S2 & _).
    unfold create_schema. rewrite S1, S2. cbn [snd].
    rewrite !create_if_not_exists_elsewhere by done.
    by apply healthy_run_elsewhere. }
  rewrite (healthy_run engine second) by done. rewrite E.
  rewrite (healthy_run engine first) by done. cbv zeta. cbn [db_after overall].
  done.
Qed.

Lemma full_refresh_idempotent_witness :
  let run1 := load_all_data permissive no_faults one_stat_file "data" true ∅ in
  let run2 := load_all_data permissive no_faults one_stat_file "data" true (db_after run1) in
  count (db_after run1) "player_season_stats" = 1%nat /\
  ((forall table, count (db_after run2) table = count (db_after run1) table) /\
   db_after run2 = db_after run1 /\ overall run2 = overall run1).
Proof.
  split; [reflexivity|].
  apply (full_refresh_idempotent permissive no_faults no_faults one_stat_file "data" ∅);
    repeat split.
Defined.

(** C10, as stated, fails when the truncations are refused: the error
    is caught in [clear_table], [load_all_data] goes on, and the second
    run appends the stat rows to those of the first. *)
Lemma refused_truncate_doubles_rows :
  let run1 := load_all_data permissive truncate_refused one_stat_file "data" true ∅ in
  let run2 :=
    load_all_data permissive truncate_refused one_stat_file "data" true (db_after run1) in
  count (db_after run1) "player_season_stats" = 1%nat /\
  count (db_after run2) "player_season_stats" = 2%nat.
Proof. split; reflexivity. Qed.

(** ** The generator's files and the loader's mapping *)

Lemma load_file_absent engine fs dir f t st :
  fs !! path_join dir f = None -> load_file engine fs dir (f, t) st = st.
Proof. intros H. unfold load_file. by rewrite H. Qed.

Lemma load_file_tables engine fs dir entry st a :
  a ∈ attempts (load_file engine fs dir entry st) ->
  a ∈ attempts st \/ a_table a = entry.2.
Proof.
  unfold load_file. destruct entry as [f t].
  destruct (fs !! path_join dir f); [|by left].
  destruct (load_csv_to_table _ _ _ _ _) as [[ok n] db']. cbn [attempts].
  intros [H|H]%elem_of_app; [by left|]. right.
  apply list_elem_of_singleton in H. by subst.
Qed.

Lemma save_data_other frames (fs : FileSystem) (path : string) :
  path <> "data/teams_all_seasons.csv" ->
  path <> "data/players_all_seasons.csv" ->
  path <> "data/player_season_stats.csv" ->
  path <> "data/postgres_ready/teams_all_seasons.csv" ->
  path <> "data/postgres_ready/players_all_seasons.csv" ->
  path <> "data/postgres_ready/player_season_stats.csv" ->
  save_data frames fs !! path = fs !! path.
Proof.
  intros. unfold save_data, to_csv. cbv zeta. by rewrite !lookup_insert_ne.
Qed.

(** C4: [save_data] writes the stat frame to [player_season_stats.csv]
    in both output directories, and this name is not a key of
    [file_mappings]; so a load over either of these directories, which
    holds no per-mode stat file of another origin, never targets
    [player_season_stats]: no row is inserted into it, and the table is
    left as it was, or emptied by the clearing step. *)
Theorem generated_stats_never_loaded (engine : Engine) (faults : Faults)
    (frames : Frames) (fs : FileSystem) (data_directory : string)
    (clear_existing : bool) (db : Database) :
  data_directory = "data" \/ data_directory = "data/postgres_ready" ->
  (forall f, (f, "player_season_stats") ∈ file_mappings ->
             fs !! path_join data_directory f = None) ->
  let run :=
    load_all_data engine faults (save_data frames fs) data_directory clear_existing db in
  let stats := Csv (data_frame stat_columns stat_cells (stats_df frames)) in
  save_data frames fs !! "data/player_season_stats.csv" = Some stats /\
  save_data frames fs !! "data/postgres_ready/player_season_stats.csv" = Some stats /\
  ("player_season_stats.csv" ∉ map fst file_mappings) /\
  (forall a, a ∈ run_attempts run -> a_table a <> "player_season_stats") /\
  table_of (db_after run) "player_season_stats"
  = if connect_ok faults && create_schema_ok faults && clear_existing
       && truncate_ok faults "player_season_stats"
    then [] else table_of db "player_season_stats".
Proof.
  intros Hdir Hfs. cbv zeta.
  split.
  { unfold save_data, to_csv. cbv zeta.
    rewrite !lookup_insert_ne by done. by rewrite lookup_insert_eq. }
  split.
  { unfold save_data, to_csv. cbv zeta. by rewrite lookup_insert_eq. }
  split.
  { unfold file_mappings. cbn [map fst].
    rewrite !not_elem_of_cons. repeat split; try done. apply not_elem_of_nil. }
  assert (Habs : forall f, (f, "player_season_stats") ∈ file_mappings ->
            save_data frames fs !! path_join data_directory f = None).
  { intros f Hf. rewrite <- (Hfs f Hf). unfold file_mappings in Hf.
    repeat (apply elem_of_cons in Hf as [Hf|Hf]; [try discriminate Hf|]);
      [| | |by apply elem_of_nil in Hf];
      injection Hf as ->; destruct Hdir as [-> | ->]; by apply save_data_other. }
  unfold load_all_data.
  destruct (connect_ok faults); cbn [negb andb run_attempts db_after];
    [|split; [by intros a Ha%elem_of_nil | done]].
  unfold create_schema.
  destruct (create_schema_ok faults); cbn [negb andb run_attempts db_after];
    [|split; [by intros a Ha%elem_of_nil | done]].
  set (db0 := if clear_existing then _ else _).
  assert (Hdb0 : table_of db0 "player_season_stats"
                 = if clear_existing && truncate_ok faults "player_season_stats"
                   then [] else table_of db "player_season_stats").
  { subst db0. destruct clear_existing; cbn [andb fold_left].
    - unfold clear_table.
      destruct (truncate_ok faults "players"), (truncate_ok faults "player_season_stats"),
        (truncate_ok faults "teams"); cbn [snd];
        rewrite ?(table_of_insert_ne _ "teams"), ?table_of_insert_eq by done;
        rewrite ?(table_of_insert_ne _ "players") by done;
        by rewrite ?table_of_create_if_not_exists.
    - by rewrite !table_of_create_if_not_exists. }
  rewrite <- Hdb0. clearbody db0.
  assert (Hrun : load_files engine (save_data frames fs) data_directory file_mappings
                   (mkLoadState db0 0 0 [])
                 = load_files engine (save_data frames fs) data_directory
                     [("players_all_seasons.csv", "players");
                      ("teams_all_seasons.csv", "teams")] (mkLoadState db0 0 0 [])).
  { unfold file_mappings. rewrite !load_files_cons.
    rewrite !(load_file_absent _ _ _ _ "player_season_stats");
      [done | apply Habs; unfold file_mappings; repeat (first [by left | right]) ..]. }
  rewrite Hrun. split.
  - intros a Ha. rewrite !load_files_cons in Ha. cbn [load_files fold_left] in Ha.
    apply load_file_tables in Ha as [Ha|Ha]; [|cbn in Ha; by rewrite Ha].
    apply load_file_tables in Ha as [Ha|Ha]; [|cbn in Ha; by rewrite Ha].
    by apply elem_of_nil in Ha.
  - unfold table_of. rewrite load_files_elsewhere; [done|].
    intros e He. repeat (apply elem_of_cons in He as [->|He]; [done|]).
    by apply elem_of_nil in He.
Qed.

Lemma generated_stats_never_loaded_witness :
  let run := load_all_data permissive no_faults (save_data sample_frames ∅) "data" true ∅ in
  length (stats_df sample_frames) = 1%nat /\
  count (db_after run) "players" = 1%nat /\
  (save_data sample_frames ∅ !! "data/player_season_stats.csv"
   = Some (Csv (data_frame stat_columns stat_cells (stats_df sample_frames))) /\
   save_data sample_frames ∅ !! "data/postgres_ready/player_season_stats.csv"
   = Some (Csv (data_frame stat_columns stat_cells (stats_df sample_frames))) /\
   ("player_season_stats.csv" ∉ map fst file_mappings) /\
   (forall a, a ∈ run_attempts run -> a_table a <> "player_season_stats") /\
   table_of (db_after run) "player_season_stats" = []).
Proof.
  split; [reflexivity|]. split; [reflexivity|].
  apply (generated_stats_never_loaded permissive no_faults sample_frames ∅ "data" true ∅).
  - by left.
  - intros f _. apply lookup_empty.
Defined.

(** ** Season strings *)

Lemma py_range_lookup (a b : Z) (k : nat) :
  (k < Z.to_nat (b - a))%nat -> py_range a b !! k = Some (a + Z.of_nat k).
Proof.
  intros H. unfold py_range.
  change (map ?f ?l) with (f <$> l).
  rewrite list_lookup_fmap, lookup_seq_lt by done. reflexivity.
Qed.

Lemma py_range_elem (a b x : Z) : x ∈ py_range a b <-> a <= x < b.
Proof.
  unfold py_range. change (map ?f ?l) with (f <$> l).
  rewrite list_elem_of_fmap. split.
  - intros (k & -> & Hk). apply elem_of_seq in Hk. lia.
  - intros H. exists (Z.to_nat (x - a)). split; [lia|]. apply elem_of_seq. lia.
Qed.

(** The two suffixes agree on every four-digit [year + 1]; checked on
    each of the 9000 values. *)
Lemma suffix_agrees_four_digits (n : Z) :
  1000 <= n <= 9999 ->
  PyStr.slice_from 2 (PyStr.str n) = two_digits (n mod 100).
Proof.
  intros H.
  assert (All : forallb suffix_agrees (py_range 1000 10000) = true)
    by (vm_compute; reflexivity).
  rewrite forallb_forall in All.
  apply String.eqb_eq, All, list_elem_of_In, py_range_elem. lia.
Qed.

(** C5, as the code has it: for every year of the range whose successor
    has four digits (999 <= year <= 9998) the season string is the year,
    a hyphen and the last two digits of year + 1. *)
Theorem season_string_format (start_year end_year year : Z) :
  start_year <= year <= end_year ->
  999 <= year <= 9998 ->
  seasons start_year end_year !! Z.to_nat (year - start_year)
  = Some (spec_season_format year).
Proof.
  intros Hr Hy. unfold seasons. change (map ?f ?l) with (f <$> l).
  rewrite list_lookup_fmap, py_range_lookup by lia.
  cbn. f_equal. replace (start_year + Z.of_nat (Z.to_nat (year - start_year))) with year by lia.
  unfold season_of_year, spec_season_format.
  by rewrite suffix_agrees_four_digits by lia.
Qed.

Lemma season_string_format_witness :
  seasons 1980 2025 !! Z.to_nat (1999 - 1980) = Some (spec_season_format 1999)
  /\ spec_season_format 1999 = "1999-00".
Proof.
  split; [apply (season_string_format 1980 2025 1999); lia | reflexivity].
Defined.

(** C5, as stated, fails past the four-digit years: the slice
    [str(year+1)[2:]] keeps three digits of 10000. *)
Lemma season_of_9999 :
  seasons 9999 9999 = ["9999-000"] /\ spec_season_format 9999 = "9999-00".
Proof. split; reflexivity. Qed.

(** ** Rounding *)

Section Rounding.

Local Open Scope Q_scope.

Lemma round_half_even_error y :
  - (1 # 2) <= inject_Z (PyNum.round_half_even y) - y <= 1 # 2.
Proof.
  unfold PyNum.round_half_even.
  pose proof (Qfloor_le y) as Hl. pose proof (Qlt_floor y) as Hu.
  rewrite inject_Z_plus in Hu. change (inject_Z 1) with 1 in Hu.
  destruct (Qcompare_spec (y - inject_Z (Qfloor y)) (1 # 2)) as [E|E|E].
  - destruct (Z.even (Qfloor y)); rewrite ?inject_Z_plus;
      change (inject_Z 1) with 1; lra.
  - lra.
  - rewrite inject_Z_plus. change (inject_Z 1) with 1. lra.
Qed.

Lemma round_half_even_pos y : 1 # 2 < y -> (1 <= PyNum.round_half_even y)%Z.
Proof.
  intros H. unfold PyNum.round_half_even.
  pose proof (Qfloor_le y) as Hl. pose proof (Qlt_floor y) as Hu.
  assert (0 <= Qfloor y)%Z as Hf.
  { assert (H0 : inject_Z 0 < inject_Z (Qfloor y + 1)).
    { apply Qlt_trans with y; [change (inject_Z 0) with 0; lra | exact Hu]. }
    rewrite <- Zlt_Qlt in H0. lia. }
  destruct (Qcompare_spec (y - inject_Z (Qfloor y)) (1 # 2)) as [E|E|E].
  - destruct (Z.even (Qfloor y)) eqn:Ev; [|lia].
    destruct (Z.eq_dec (Qfloor y) 0%Z) as [Z0|]; [|lia].
    rewrite Z0 in E. change (inject_Z 0) with 0 in E. lra.
  - destruct (Z.eq_dec (Qfloor y) 0%Z) as [Z0|]; [|lia].
    rewrite Z0 in E. change (inject_Z 0) with 0 in E. lra.
  - lia.
Qed.

Lemma Qmake_scale (z : Z) (p : positive) : z # p == inject_Z z * (1 # p).
Proof. unfold Qeq, inject_Z, Qmult. cbn. lia. Qed.

(** Rounding to one decimal moves a value by at most 0.05. *)
Lemma round_error_1 x : Qabs (PyNum.round x 1 - x) <= 1 # 20.
Proof.
  apply Qabs_Qle_condition. unfold PyNum.round.
  change (PyNum.pow10 1) with 10%positive.
  pose proof (round_half_even_error (x * inject_Z 10)) as H.
  revert H. generalize (PyNum.round_half_even (x * inject_Z 10)). intros z H.
  rewrite (Qmake_scale z 10). change (inject_Z 10) with (10 # 1) in *.
  revert H. generalize (inject_Z z). intros q [H1 H2]. split; lra.
Qed.

(** Rounding to three decimals moves a value by at most 0.0005. *)
Lemma round_error_3 x : Qabs (PyNum.round x 3 - x) <= 1 # 2000.
Proof.
  apply Qabs_Qle_condition. unfold PyNum.round.
  change (PyNum.pow10 3) with 1000%positive.
  pose proof (round_half_even_error (x * inject_Z 1000)) as H.
  revert H. generalize (PyNum.round_half_even (x * inject_Z 1000)). intros z H.
  rewrite (Qmake_scale z 1000). change (inject_Z 1000) with (1000 # 1) in *.
  revert H. generalize (inject_Z z). intros q [H1 H2]. split; lra.
Qed.

(** A value above 0.0005 does not round to zero at three decimals. *)
Lemma round_pos_3 x : 1 # 2000 < x -> 0 < PyNum.round x 3.
Proof.
  intros H. unfold PyNum.round. change (PyNum.pow10 3) with 1000%positive.
  assert (1 <= PyNum.round_half_even (x * inject_Z 1000))%Z.
  { apply round_half_even_pos. change (inject_Z 1000) with (1000 # 1). lra. }
  unfold Qlt. cbn. lia.
Qed.

Lemma within_rounding_round (m p : Q) :
  1 # 2000 < p ->
  within_rounding (PyNum.round m 1) (PyNum.round (m / p) 1) (PyNum.round p 3).
Proof.
  intros Hp. exists m, p. repeat split.
  - lra.
  - apply round_error_1.
  - apply round_error_3.
  - apply round_error_1.
Qed.

End Rounding.

(** ** Rules for computations *)

Section Rules.

Context {A B : Type} (partial : Prop).

Lemma hoare_ret (a : A) (post : A -> World -> Prop) w :
  post a w -> hoare partial (mret a) post w.
Proof. done. Qed.

Lemma hoare_raise (e : exn) (post : A -> World -> Prop) w :
  partial -> hoare partial (raise e) post w.
Proof. done. Qed.

Lemma hoare_bind (m : M A) (k : A -> M B) (post : B -> World -> Prop) w :
  hoare partial m (fun a w' => hoare partial (k a) post w') w ->
  hoare partial (m ≫= k) post w.
Proof.
  unfold hoare, mbind, M_bind, bind. by destruct (m w).
Qed.

Lemma hoare_mono (m : M A) (post post' : A -> World -> Prop) w :
  (forall a w', post a w' -> post' a w') ->
  hoare partial m post w -> hoare partial m post' w.
Proof. unfold hoare. intros H. destruct (m w); auto. Qed.

End Rules.

(** A [for] loop keeps an invariant that its body keeps. *)
Lemma hoare_for_each {X S} (partial : Prop) (inv : S -> World -> Prop)
    (body : X -> S -> M S) (l : list X) :
  (forall x s w, x ∈ l -> inv s w -> hoare partial (body x s) inv w) ->
  forall s w, inv s w -> hoare partial (for_each l body s) inv w.
Proof.
  induction l as [|x l IH]; intros Hbody s w Hs; [done|].
  cbn [for_each]. apply hoare_bind.
  eapply hoare_mono; [|apply Hbody; [by left | done]].
  intros s' w' Hs'. apply IH; [|done].
  intros y t w'' Hy. apply Hbody. by right.
Qed.

Section RandomRules.

Context {A : Type} (partial : Prop).

Lemma hoare_next (post : N -> World -> Prop) w :
  post (source w (drawn w)) (advance w) -> hoare partial Random.next post w.
Proof. done. Qed.

Lemma random_unit_interval (r : N) :
  (0 <= Z.of_N (r mod 2 ^ 53) # 2 ^ 53 < 1)%Q.
Proof.
  pose proof (N.mod_upper_bound r (2 ^ 53) ltac:(done)) as H.
  unfold Qle, Qlt. cbn [Qnum Qden].
  change (Z.pos (2 ^ 53)) with (Z.of_N (2 ^ 53)).
  revert H. generalize (r mod 2 ^ 53)%N. intros m. generalize (2 ^ 53)%N.
  intros p H. split; lia.
Qed.

Lemma hoare_uniform (a b : Q) (post : Q -> World -> Prop) w :
  (a <= b)%Q ->
  (forall x, (a <= x <= b)%Q -> post x (advance w)) ->
  hoare partial (Random.uniform a b) post w.
Proof.
  intros Hab H. unfold Random.uniform, Random.random.
  apply hoare_bind, hoare_bind, hoare_next. apply hoare_ret, hoare_ret. apply H.
  pose proof (random_unit_interval (source w (drawn w))) as [H0 H1].
  revert H0 H1. generalize (Z.of_N (source w (drawn w) mod 2 ^ 53) # 2 ^ 53)%Q.
  intros u H0 H1.
  assert (0 <= (b - a) * u)%Q by (apply Qmult_le_0_compat; lra).
  assert (0 <= (b - a) * (1 - u))%Q by (apply Qmult_le_0_compat; lra).
  split; lra.
Qed.

Lemma hoare_randint (a b : Z) (post : Z -> World -> Prop) w :
  partial \/ a <= b ->
  (forall v, a <= v <= b -> post v (advance w)) ->
  hoare partial (Random.randint a b) post w.
Proof.
  intros Hab H. unfold Random.randint. destruct (Z.ltb_spec b a).
  - apply hoare_raise. destruct Hab; [done | lia].
  - apply hoare_bind, hoare_next, hoare_ret, H.
    pose proof (Z.mod_pos_bound (Z.of_N (source w (drawn w))) (b - a + 1)). lia.
Qed.

Lemma hoare_choice {X} (l : list X) (post : X -> World -> Prop) w :
  partial \/ l <> [] ->
  (forall x, x ∈ l -> post x (advance w)) ->
  hoare partial (Random.choice l) post w.
Proof.
  intros Hl H. unfold Random.choice. destruct l as [|x l].
  - apply hoare_raise. by destruct Hl.
  - apply hoare_bind, hoare_next, hoare_ret, H.
    apply list_elem_of_In, nth_In.
    pose proof (N.mod_upper_bound (source w (drawn w)) (N.of_nat (length (x :: l))))
      as Hlt.
    revert Hlt. generalize (source w (drawn w) mod N.of_nat (length (x :: l)))%N.
    cbn [length]. intros m Hlt. lia.
Qed.

End RandomRules.

Section StoreRules.

Context (partial : Prop).

Lemma hoare_getitem (l : loc) (k : string) (d : Dict) (v : Q)
    (post : Q -> World -> Prop) w :
  heap w !! l = Some d -> d !! k = Some v -> post v w ->
  hoare partial (Store.getitem l k) post w.
Proof.
  intros Hl Hk H. unfold hoare, Store.getitem, Store.load, mbind, M_bind, bind.
  by rewrite Hl, Hk.
Qed.

Lemma hoare_get (l : loc) (k : string) (default : Q) (d : Dict)
    (post : Q -> World -> Prop) w :
  heap w !! l = Some d -> (forall v, post v w) ->
  hoare partial (Store.get l k default) post w.
Proof.
  intros Hl H. unfold hoare, Store.get, Store.load, mbind, M_bind, bind.
  rewrite Hl. cbn. apply H.
Qed.

End StoreRules.

(** ** Statistic synthesis: the draws *)

Ltac hoare_step :=
  lazymatch goal with
  | |- hoare _ (mbind _ (Random.randint _ _)) _ _ =>
      apply hoare_bind, hoare_randint;
        [right; first [lia | apply Z.div_le_upper_bound; lia] | intros ? ?]
  | |- hoare _ (mbind _ (Random.uniform _ _)) _ _ =>
      apply hoare_bind, hoare_uniform; [lra | intros ? ?]
  | |- hoare _ (mbind _ (Random.choice _)) _ _ =>
      apply hoare_bind, hoare_choice; [right; done | intros ? ?]
  | |- hoare _ (mbind _ (Store.getitem _ _)) _ _ =>
      apply hoare_bind; eapply hoare_getitem; [eassumption | eassumption |]
  | |- hoare _ (mbind _ (Store.get _ _ _)) _ _ =>
      apply hoare_bind; eapply hoare_get; [eassumption | intros ?]
  end; cbv zeta.

Lemma draw_stats_consistent (partial : Prop) (base era_mult : loc) (w : World) :
  templates_ready (heap w) base era_mult ->
  hoare partial (draw_stats base era_mult)
    (fun line w' => heap w' = heap w /\ consistent_shooting line) w.
Proof.
  intros (db & de & Hb & He & [bp Hbp] & [ba Hba] & [br Hbr] & [ep Hep] & [ea Hea]
          & [er Her] & t & Ht & Hge).
  unfold draw_stats.
  change (heap w) with (heap (advance w)) in Hb, He.
  repeat hoare_step.
  apply hoare_ret. split; [done|].
  assert (HQ : (1 # 2000 < x3 * t)%Q).
  { apply Qlt_le_trans with (0.25 * 0.3)%Q; [done|].
    apply Qmult_le_compat_nonneg; split; lra. }
  unfold consistent_shooting.
  cbn [field_goal_percentage three_point_percentage free_throw_percentage
       field_goals_made field_goals_attempted three_pointers_made
       three_pointers_attempted free_throws_made free_throws_attempted].
  repeat split; first [apply round_pos_3 | apply within_rounding_round]; lra.
Qed.

(** ** Statistic synthesis: the two tables *)

Lemma eval_table_spec t w :
  eval_table t w
  = Ok (addresses t (length (heap w))) (set_heap w (heap w ++ objects t)).
Proof.
  revert w. induction t as [|[k fields] t IH]; intros w.
  - cbn. unfold set_heap. rewrite app_nil_r. by destruct w.
  - cbn [eval_table]. unfold mbind, M_bind, bind, Store.alloc. rewrite IH.
    cbn. unfold set_heap. cbn. rewrite length_app, <- app_assoc. cbn.
    by rewrite Nat.add_1_r.
Qed.

Lemma assoc_addresses_Some t k n fields :
  assoc k t = Some fields ->
  exists i, assoc k (addresses t n) = Some (n + i)%nat
            /\ objects t !! i = Some (list_to_map fields).
Proof.
  revert n. induction t as [|[k' f'] t IH]; intros n; [done|].
  cbn [assoc addresses]. destruct (String.eqb k' k).
  - intros [= ->]. exists 0%nat. by rewrite Nat.add_0_r.
  - intros H. destruct (IH (S n) H) as (i & Hi & Ho). exists (S i).
    split; [by rewrite Hi, Nat.add_succ_r | done].
Qed.

Lemma assoc_addresses_None t k n :
  assoc k t = None -> assoc k (addresses t n) = None.
Proof.
  revert n. induction t as [|[k' f'] t IH]; intros n; [done|].
  cbn [assoc addresses]. destruct (String.eqb k' k); [done | apply IH].
Qed.

(** [table_get] returns the address of the object built from the entry
    that [literal_entry] selects. *)
Lemma table_get_addresses t k fallback n fields :
  literal_entry t k fallback = Some fields ->
  exists i, table_get (addresses t n) k fallback = mret (n + i)%nat
            /\ objects t !! i = Some (list_to_map fields).
Proof.
  unfold literal_entry, table_get.
  destruct (assoc fallback t) as [d|] eqn:Ef; [|done].
  destruct (assoc_addresses_Some t fallback n d Ef) as (j & Hj & Ho). rewrite Hj.
  destruct (assoc k t) as [f|] eqn:Ek; cbn [default].
  - intros [= ->]. destruct (assoc_addresses_Some t k n fields Ek) as (i & Hi & Hoi).
    exists i. by rewrite Hi.
  - intros [= ->]. rewrite (assoc_addresses_None t k n Ek). by exists j.
Qed.

(** Every entry of the position table has the three counting keys. *)
Lemma position_entry_keys position :
  exists fields,
    literal_entry position_bases_literal position "SF" = Some fields
    /\ has_counting_keys (list_to_map fields).
Proof.
  unfold literal_entry, position_bases_literal. cbn [assoc].
  repeat match goal with
         | |- context [String.eqb ?a position] => destruct (String.eqb a position)
         end;
    cbn; eexists; (split; [reflexivity|]); repeat split; by eexists.
Qed.

(** Every entry of the era table has the three counting keys and a
    three-point multiplier of at least 0.3; its points multiplier is
    [era_points]. *)
Lemma era_entry_keys era :
  exists fields v t,
    literal_entry era_multipliers_literal era "regular" = Some fields
    /\ has_counting_keys (list_to_map fields)
    /\ era_points era = Some v
    /\ (list_to_map fields : Dict) !! "points" = Some v
    /\ (list_to_map fields : Dict) !! "three_pct" = Some t
    /\ (3 # 10 <= t)%Q.
Proof.
  unfold era_points, literal_entry, era_multipliers_literal. cbn [assoc].
  repeat match goal with
         | |- context [String.eqb ?a era] => destruct (String.eqb a era)
         end;
    cbn; eexists; eexists; eexists; (split; [reflexivity|]);
    (split; [repeat split; by eexists|]); repeat split; done.
Qed.

(** ** Statistic synthesis: the adjustments *)

Lemma hoare_setitem (partial : Prop) (l : loc) (k : string) (v : Q) (d : Dict)
    (post : unit -> World -> Prop) w :
  heap w !! l = Some d ->
  post tt (set_heap w (<[l := <[k := v]> d]> (heap w))) ->
  hoare partial (Store.setitem l k v) post w.
Proof.
  intros Hl H. unfold hoare, Store.setitem, Store.load, Store.store, mbind, M_bind, bind.
  by rewrite Hl.
Qed.

Lemma hoare_mulitem (partial : Prop) (l : loc) (k : string) (c v : Q) (d : Dict)
    (post : unit -> World -> Prop) w :
  heap w !! l = Some d -> d !! k = Some v ->
  post tt (set_heap w (<[l := <[k := (v * c)%Q]> d]> (heap w))) ->
  hoare partial (Store.mulitem l k c) post w.
Proof.
  intros Hl Hk H. unfold Store.mulitem. apply hoare_bind.
  eapply hoare_getitem; [done..|]. by eapply hoare_setitem.
Qed.

Lemma has_counting_keys_insert (d : Dict) (k : string) (v : Q) :
  has_counting_keys d -> has_counting_keys (<[k := v]> d).
Proof.
  intros (H1 & H2 & H3). repeat split; rewrite lookup_insert; by case_decide.
Qed.

Section BaseAdjustments.

Context (partial : Prop) (base era_mult : loc) (de : Dict).
Context (Hne : base <> era_mult).

Lemma base_ready_update w (db d' : Dict) :
  heap w !! base = Some db -> heap w !! era_mult = Some de ->
  has_counting_keys d' ->
  base_ready base era_mult de (set_heap w (<[base := d']> (heap w))).
Proof.
  intros Hb He Hk. exists d'. cbn. split; [|split; [done|]].
  - apply list_lookup_insert_eq. by eapply lookup_lt_Some.
  - by rewrite list_lookup_insert_ne.
Qed.

Lemma hoare_mulitem_base (k : string) (c : Q) (post : unit -> World -> Prop) w :
  k ∈ ["points"; "assists"; "rebounds"] ->
  base_ready base era_mult de w ->
  (forall w', base_ready base era_mult de w' -> post tt w') ->
  hoare partial (Store.mulitem base k c) post w.
Proof.
  intros Hk (db & Hb & Hkeys & He) H.
  assert (is_Some (db !! k)) as [v Hv].
  { destruct Hkeys as (H1 & H2 & H3).
    repeat (apply elem_of_cons in Hk as [->|Hk]; [done|]). by apply elem_of_nil in Hk. }
  eapply hoare_mulitem; [done..|]. apply H.
  eapply base_ready_update; [done..|]. by apply has_counting_keys_insert.
Qed.

Lemma hoare_get_base (k : string) (default : Q) (post : Q -> World -> Prop) w :
  base_ready base era_mult de w ->
  (forall v, post v w) ->
  hoare partial (Store.get base k default) post w.
Proof. intros (db & Hb & _) H. by eapply hoare_get. Qed.

Lemma hoare_setitem_base (k : string) (v : Q) (post : unit -> World -> Prop) w :
  base_ready base era_mult de w ->
  (forall w', base_ready base era_mult de w' -> post tt w') ->
  hoare partial (Store.setitem base k v) post w.
Proof.
  intros (db & Hb & Hkeys & He) H. eapply hoare_setitem; [done|]. apply H.
  eapply base_ready_update; [done..|]. by apply has_counting_keys_insert.
Qed.

End BaseAdjustments.

(** The adjustments end with both objects ready for the draws, and for
    a year from 2020 on the points multiplier of [era_mult] is the entry
    of the table multiplied once by 1.2. *)
Lemma adjusted_templates_spec (partial : Prop) (player_name position : string)
    (year : Z) (era : string) (w : World) :
  hoare partial (adjusted_templates player_name position year era)
    (fun '(base, era_mult) w' =>
       templates_ready (heap w') base era_mult /\
       (2020 <= year ->
        exists (de : Dict) (v : Q),
          heap w' !! era_mult = Some de /\ era_points era = Some v
          /\ de !! "points" = Some (v * 1.2)%Q)) w.
Proof.
  unfold adjusted_templates.
  destruct (position_entry_keys position) as (pf & Hpf & Hpk).
  destruct (era_entry_keys era) as (ef & v & t & Hef & Hek & Hv & Hp & Ht & Hge).
  apply hoare_bind. unfold hoare at 1. rewrite eval_table_spec.
  destruct (table_get_addresses _ _ _ (length (heap w)) _ Hpf) as (i & -> & Hi).
  apply hoare_bind, hoare_ret.
  apply hoare_bind. unfold hoare at 1. rewrite eval_table_spec.
  cbn [heap set_heap].
  destruct (table_get_addresses _ _ _ (length (heap w ++ objects position_bases_literal)) _ Hef)
    as (j & -> & Hj).
  apply hoare_bind, hoare_ret.
  set (base := (length (heap w) + i)%nat).
  set (era_mult := (length (heap w ++ objects position_bases_literal) + j)%nat).
  set (h := (heap w ++ objects position_bases_literal) ++ objects era_multipliers_literal).
  assert (Hb : h !! base = Some (list_to_map pf)).
  { subst h base. rewrite lookup_app_l.
    - by rewrite lookup_app_r, Nat.add_comm, Nat.add_sub by lia.
    - rewrite length_app. apply lookup_lt_Some in Hi. lia. }
  assert (He : h !! era_mult = Some (list_to_map ef)).
  { subst h era_mult. by rewrite lookup_app_r, Nat.add_comm, Nat.add_sub by lia. }
  assert (Hne : base <> era_mult).
  { subst base era_mult. rewrite length_app. apply lookup_lt_Some in Hi. lia. }
  clearbody base era_mult h.
  (* the year *)
  apply hoare_bind.
  apply hoare_mono with
    (post := fun _ w' =>
       exists de : Dict,
         base_ready base era_mult de w' /\ has_counting_keys de
         /\ (exists t, de !! "three_pct" = Some t /\ (3 # 10 <= t)%Q)
         /\ (2020 <= year -> de !! "points" = Some (v * 1.2)%Q)).
  2:{ destruct (Z.leb_spec 2020 year) as [Hy|Hy].
      - apply hoare_bind. eapply hoare_mulitem; [exact He | exact Hp |].
        eapply hoare_setitem.
        { cbn. apply list_lookup_insert_eq. by eapply lookup_lt_Some. }
        cbn [heap set_heap]. rewrite list_insert_insert_eq.
        eexists. split; [|split; [|split]].
        + exists (list_to_map pf). cbn. split; [|split; [done|]].
          * by rewrite list_lookup_insert_ne.
          * apply list_lookup_insert_eq. by eapply lookup_lt_Some.
        + by do 2 apply has_counting_keys_insert.
        + exists 0.8%Q. by rewrite lookup_insert_eq.
        + intros _. by rewrite lookup_insert_ne, lookup_insert_eq.
      - apply hoare_ret. exists (list_to_map ef). split; [|split; [done|split]].
        + by exists (list_to_map pf).
        + by exists t.
        + lia. }
  intros _ w1 (de & Hready & Hdk & Hdt & Hdp).
  (* the superstars *)
  apply hoare_bind.
  apply hoare_mono with (post := fun _ w' => base_ready base era_mult de w').
  2:{ repeat match goal with
             | |- context [name_in player_name ?l] => destruct (name_in player_name l)
             end;
        repeat lazymatch goal with
          | |- hoare _ (mret _) _ _ => apply hoare_ret
          | |- hoare _ (mbind _ _) _ _ => apply hoare_bind
          | |- hoare _ (Store.mulitem base _ _) _ _ =>
              apply (hoare_mulitem_base partial base era_mult de Hne);
              [repeat (first [by left | right]) | done | intros ? ?]
          | |- hoare _ (Store.get base _ _) _ _ =>
              apply (hoare_get_base partial base era_mult de); [done | intros ?]
          | |- hoare _ (Store.setitem base _ _) _ _ =>
              apply (hoare_setitem_base partial base era_mult de Hne);
              [done | intros ? ?]
          end;
        done. }
  intros _ w2 (db & Hb2 & Hbk & He2). apply hoare_ret. split.
  - destruct Hbk as (K1 & K2 & K3), Hdk as (D1 & D2 & D3).
    exists db, de. by repeat split.
  - intros Hy. exists de, v. by repeat split; [| |apply Hdp].
Qed.

Lemma hoare_ok {A} (m : M A) (post : A -> World -> Prop) w :
  hoare False m post w -> exists a w', m w = Ok a w' /\ post a w'.
Proof. unfold hoare. destruct (m w); [eauto | done]. Qed.

Lemma hoare_of_ok {A} (partial : Prop) (m : M A) (post : A -> World -> Prop) w a w' :
  m w = Ok a w' -> hoare partial m post w -> post a w'.
Proof. unfold hoare. by intros ->. Qed.

(** Every call of the statistic synthesis returns, and the row it
    returns has consistent shooting columns. *)
Lemma generate_stats_consistent (partial : Prop) (player_name position : string)
    (year : Z) (era : string) (w : World) :
  hoare partial (_generate_era_appropriate_stats player_name position year era)
    (fun line _ => consistent_shooting line) w.
Proof.
  unfold _generate_era_appropriate_stats. apply hoare_bind.
  eapply hoare_mono; [|apply adjusted_templates_spec].
  intros [base era_mult] w' [Hready _].
  eapply hoare_mono; [|by apply draw_stats_consistent].
  by intros line w'' [_ H].
Qed.

(** C7: for every call of [_generate_era_appropriate_stats] (every
    name, position, year and era, every state of the random source) the
    call returns a row whose three shooting percentages are strictly
    positive and whose attempted values are made / percentage up to the
    roundings to one and to three decimals. *)
Theorem shooting_columns_consistent (player_name position : string) (year : Z)
    (era : string) (w : World) :
  exists line w',
    _generate_era_appropriate_stats player_name position year era w = Ok line w'
    /\ consistent_shooting line.
Proof. apply hoare_ok, generate_stats_consistent. Qed.

(** ** Statistic synthesis: the objects of earlier calls *)

Section Shifts.

Context (h : list Dict).

Lemma shifts_ret {A B} (f : A -> B) (a : A) : shifts h f (mret a) (mret (f a)).
Proof. by intros w. Qed.

Lemma shifts_raise {A B} (f : A -> B) (e : exn) : shifts h f (raise e) (raise e).
Proof. by intros w. Qed.

Lemma shifts_bind {A B A' B'} (f : A -> A') (g : B -> B')
    (m : M A) (m' : M A') (k : A -> M B) (k' : A' -> M B') :
  shifts h f m m' -> (forall a, shifts h g (k a) (k' (f a))) ->
  shifts h g (m ≫= k) (m' ≫= k').
Proof.
  intros Hm Hk w. unfold mbind, M_bind, bind. rewrite Hm.
  destruct (m w) as [a w'|e]; [apply Hk | done].
Qed.

Lemma shifts_next : shifts h (fun r => r) Random.next Random.next.
Proof. by intros w. Qed.

Lemma shifts_uniform (a b : Q) :
  shifts h (fun x => x) (Random.uniform a b) (Random.uniform a b).
Proof.
  unfold Random.uniform, Random.random.
  eapply shifts_bind; [eapply shifts_bind; [apply shifts_next|]|];
    intros ?; apply (shifts_ret (fun x : Q => x)).
Qed.

Lemma shifts_randint (a b : Z) :
  shifts h (fun x => x) (Random.randint a b) (Random.randint a b).
Proof.
  unfold Random.randint. destruct (b <? a); [apply shifts_raise|].
  eapply shifts_bind; [apply shifts_next|]. intros ?. apply (shifts_ret (fun x : Z => x)).
Qed.

Lemma shifts_alloc (d : Dict) : shifts h (above h) (Store.alloc d) (Store.alloc d).
Proof.
  intros w. unfold Store.alloc, lift_result, ext, above. cbn.
  by rewrite length_app, app_assoc.
Qed.

Lemma shifts_load (l : loc) :
  shifts h (fun d => d) (Store.load l) (Store.load (above h l)).
Proof.
  intros w. unfold Store.load, above. cbn [ext heap].
  rewrite lookup_app_r, Nat.add_comm, Nat.add_sub by lia.
  by destruct (heap w !! l).
Qed.

Lemma shifts_store (l : loc) (d : Dict) :
  shifts h (fun u => u) (Store.store l d) (Store.store (above h l) d).
Proof.
  intros w. unfold Store.store, above, lift_result, ext. cbn.
  by rewrite insert_app_r.
Qed.

Lemma shifts_getitem (l : loc) (k : string) :
  shifts h (fun v => v) (Store.getitem l k) (Store.getitem (above h l) k).
Proof.
  unfold Store.getitem. eapply shifts_bind; [apply shifts_load|]. intros d.
  destruct (d !! k); [apply (shifts_ret (fun v : Q => v)) | apply shifts_raise].
Qed.

Lemma shifts_get (l : loc) (k : string) (default : Q) :
  shifts h (fun v => v) (Store.get l k default) (Store.get (above h l) k default).
Proof.
  unfold Store.get. eapply shifts_bind; [apply shifts_load|]. intros d.
  apply (shifts_ret (fun v : Q => v)).
Qed.

Lemma shifts_setitem (l : loc) (k : string) (v : Q) :
  shifts h (fun u => u) (Store.setitem l k v) (Store.setitem (above h l) k v).
Proof.
  unfold Store.setitem. eapply shifts_bind; [apply shifts_load|]. intros d.
  apply shifts_store.
Qed.

Lemma shifts_mulitem (l : loc) (k : string) (c : Q) :
  shifts h (fun u => u) (Store.mulitem l k c) (Store.mulitem (above h l) k c).
Proof.
  unfold Store.mulitem. eapply shifts_bind; [apply shifts_getitem|]. intros v.
  apply shifts_setitem.
Qed.

Lemma shifts_eval_table t :
  shifts h (map (prod_map (fun k => k) (above h))) (eval_table t) (eval_table t).
Proof.
  induction t as [|[k fields] t IH]; [by intros w|].
  cbn [eval_table]. eapply shifts_bind; [apply shifts_alloc|]. intros l.
  eapply shifts_bind; [apply IH|]. intros rest.
  by intros w.
Qed.

Lemma assoc_map_snd {V W} (f : V -> W) (k : string) (t : list (string * V)) :
  assoc k (map (prod_map (fun k => k) f) t) = f <$> assoc k t.
Proof.
  induction t as [|[k' v] t IH]; [done|]. cbn. by destruct (String.eqb k' k).
Qed.

Lemma shifts_table_get (table : list (string * loc)) (k fallback : string) :
  shifts h (above h) (table_get table k fallback)
    (table_get (map (prod_map (fun k => k) (above h)) table) k fallback).
Proof.
  unfold table_get. rewrite !assoc_map_snd.
  destruct (assoc fallback table) as [d|]; [|apply shifts_raise]. cbn.
  destruct (assoc k table); apply (shifts_ret (above h)).
Qed.

End Shifts.

Ltac shifts_step :=
  lazymatch goal with
  | |- shifts _ _ (mbind _ _) (mbind _ _) => eapply shifts_bind; [|intros ?]
  | |- shifts _ _ (if ?b then _ else _) _ => destruct b
  | |- shifts _ _ (mret _) (mret _) => apply (shifts_ret _ (fun x => x))
  | |- shifts _ _ (Random.uniform _ _) _ => apply shifts_uniform
  | |- shifts _ _ (Random.randint _ _) _ => apply shifts_randint
  | |- shifts _ _ (Store.getitem _ _) _ => apply shifts_getitem
  | |- shifts _ _ (Store.get _ _ _) _ => apply shifts_get
  | |- shifts _ _ (Store.setitem _ _ _) _ => apply shifts_setitem
  | |- shifts _ _ (Store.mulitem _ _ _) _ => apply shifts_mulitem
  | |- shifts _ _ (eval_table _) _ => apply shifts_eval_table
  | |- shifts _ _ (table_get _ _ _) _ => apply shifts_table_get
  end.

Lemma shifts_adjusted_templates h player_name position year era :
  shifts h (prod_map (above h) (above h))
    (adjusted_templates player_name position year era)
    (adjusted_templates player_name position year era).
Proof.
  unfold adjusted_templates. repeat shifts_step.
Qed.

Lemma shifts_draw_stats h base era_mult :
  shifts h (fun line => line) (draw_stats base era_mult)
    (draw_stats (above h base) (above h era_mult)).
Proof. unfold draw_stats. repeat shifts_step. Qed.

Lemma shifts_generate_stats h player_name position year era :
  shifts h (fun line => line)
    (_generate_era_appropriate_stats player_name position year era)
    (_generate_era_appropriate_stats player_name position year era).
Proof.
  unfold _generate_era_appropriate_stats.
  eapply shifts_bind; [apply shifts_adjusted_templates|].
  intros [base era_mult]. apply shifts_draw_stats.
Qed.

Lemma ext_fresh w : ext (heap w) (fresh w) = w.
Proof. destruct w. unfold ext, fresh. cbn. by rewrite app_nil_r. Qed.

(** A call run above any objects does what it does from an empty store,
    and leaves those objects as they were. *)
Lemma generate_stats_fresh player_name position year era w :
  _generate_era_appropriate_stats player_name position year era w
  = lift_result (fun line => line) (heap w)
      (_generate_era_appropriate_stats player_name position year era (fresh w)).
Proof. rewrite <- shifts_generate_stats. by rewrite ext_fresh. Qed.

(** C3: the two tables are rebuilt from their literals by every call
    and the adjustments are written into these new objects only.
    (1) Every call returns, and the store afterwards is the store before
    with new objects added behind it: no object of an earlier call is
    changed. (2) Two calls with the same arguments and the same random
    draws return the same stats, whatever objects earlier calls left in
    the store. (3) For a year from 2020 on, the points multiplier the
    draws read is the entry of the era table times 1.2, once. *)
Theorem stat_tables_are_static (player_name position : string) (year : Z)
    (era : string) :
  (forall w, exists line w' new_objects,
      _generate_era_appropriate_stats player_name position year era w = Ok line w'
      /\ heap w' = heap w ++ new_objects) /\
  (forall w1 w2 line w1',
      source w1 = source w2 -> drawn w1 = drawn w2 ->
      _generate_era_appropriate_stats player_name position year era w1 = Ok line w1' ->
      exists w2',
        _generate_era_appropriate_stats player_name position year era w2 = Ok line w2') /\
  (2020 <= year ->
   forall w, exists base era_mult w' (de : Dict) (v : Q),
      adjusted_templates player_name position year era w = Ok (base, era_mult) w'
      /\ heap w' !! era_mult = Some de
      /\ era_points era = Some v
      /\ de !! "points" = Some (v * 1.2)%Q).
Proof.
  split; [|split].
  - intros w.
    destruct (hoare_ok _ _ _
                (generate_stats_consistent False player_name position year era (fresh w)))
      as (line & w0 & E & _).
    exists line, (ext (heap w) w0), (heap w0). split; [|done].
    by rewrite generate_stats_fresh, E.
  - intros w1 w2 line w1' Hs Hd E.
    rewrite generate_stats_fresh in E. rewrite (generate_stats_fresh _ _ _ _ w2).
    replace (fresh w2) with (fresh w1) by (unfold fresh; by rewrite Hs, Hd).
    destruct (_generate_era_appropriate_stats _ _ _ _ (fresh w1)) as [l w0|e];
      [|done].
    injection E as -> _. by eexists.
  - intros Hy w.
    destruct (hoare_ok _ _ _
                (adjusted_templates_spec False player_name position year era w))
      as ([base era_mult] & w' & E & _ & H).
    destruct (H Hy) as (de & v & H1 & H2 & H3).
    by exists base, era_mult, w', de, v.
Qed.

(** The multiplier on a concrete call: for the 2020s the table has 1.2
    and the draws read 1.2 * 1.2. *)
Example era_points_2020s : era_points "2020s" = Some 1.2%Q.
Proof. reflexivity. Qed.

(** ** The generation loop: one player *)

Lemma create_teams_rows teams_dict season g :
  create_teams teams_dict season g
  = mkGen (all_teams g ++ team_rows teams_dict season (team_id_counter g))
      (all_players g) (all_stats g)
      (team_id_counter g + Z.of_nat (length teams_dict)) (player_id_counter g).
Proof.
  revert g. induction teams_dict as [|[abbrev info] rest IH]; intros g.
  - cbn. rewrite app_nil_r, Z.add_0_r. by destruct g.
  - cbn [create_teams team_rows length]. rewrite IH. cbn.
    rewrite <- app_assoc. cbn. f_equal. lia.
Qed.

Lemma find_team_id_Some teams team_abbrev season id :
  find_team_id teams team_abbrev season = Some id ->
  exists t, t ∈ teams /\ t_team_id t = id
            /\ t_team_abbreviation t = team_abbrev /\ t_season t = season.
Proof.
  unfold find_team_id. destruct (find _ teams) as [t|] eqn:E; [|done].
  intros [= <-]. apply find_some in E as [Hin Hb].
  apply andb_true_iff in Hb as [H1 H2].
  exists t. rewrite list_elem_of_In. by rewrite String.eqb_eq in H1, H2.
Qed.

Lemma players_added_refl season g : players_added season g g.
Proof.
  repeat split. exists [], []. by rewrite !app_nil_r.
Qed.

Lemma players_added_trans season g1 g2 g3 :
  players_added season g1 g2 -> players_added season g2 g3 ->
  players_added season g1 g3.
Proof.
  intros (T1 & C1 & ps1 & ss1 & P1 & S1 & R1 & K1)
         (T2 & C2 & ps2 & ss2 & P2 & S2 & R2 & K2).
  split; [congruence|]. split; [congruence|].
  exists (ps1 ++ ps2), (ss1 ++ ss2).
  rewrite P2, P1, S2, S1, !app_assoc. repeat split; try done.
  - apply Forall_app. split; [done|]. by rewrite T1 in R2.
  - by apply Forall_app.
Qed.

(** One player: a row and a stat row are appended, the row with the
    given name, team and season and the id of the counter. When the run
    has to return, the age range must not be empty and the year must
    not be before 1975, the lower end of the draft years. *)
Lemma add_player_spec (partial : Prop) player_name position team_abbrev team_id
    age_lo age_hi year season era g w :
  partial \/ (age_lo <= age_hi /\ 1975 <= year) ->
  hoare partial
    (add_player player_name position team_abbrev team_id age_lo age_hi year season era g)
    (fun g' _ =>
       exists p s,
         g' = mkGen (all_teams g) (all_players g ++ [p]) (all_stats g ++ [s])
                (team_id_counter g) (player_id_counter g + 1)
         /\ p_player_id p = player_id_counter g
         /\ p_player_name p = player_name
         /\ p_team_id p = team_id
         /\ p_team_abbreviation p = team_abbrev
         /\ p_season p = season
         /\ consistent_shooting (s_stats s)) w.
Proof.
  intros Hok. unfold add_player.
  do 4 hoare_step.
  apply hoare_bind, hoare_randint; [destruct Hok as [?|[? ?]]; [by left | by right]|].
  intros age Hage.
  do 2 hoare_step.
  apply hoare_bind, hoare_randint; [destruct Hok as [?|[? ?]]; [by left | right; lia]|].
  intros draft_year Hdraft.
  do 2 hoare_step.
  apply hoare_bind. eapply hoare_mono; [|apply generate_stats_consistent].
  intros line w' Hline. apply hoare_ret.
  eexists _, _. split; [reflexivity|]. repeat (split; [reflexivity|]). exact Hline.
Qed.

(** ** Season strings are distinct *)

Lemma append_cons (c : ascii) (s t : string) : String c s +:+ t = String c (s +:+ t).
Proof. reflexivity. Qed.

Lemma append_nil (t : string) : "" +:+ t = t.
Proof. reflexivity. Qed.

Lemma split_head_digits (d : Decimal.uint) (rest : string) :
  PyStr.split_head "-" (NilEmpty.string_of_uint d +:+ String "-" rest)
  = NilEmpty.string_of_uint d.
Proof. induction d; cbn; rewrite ?append_cons, ?append_nil; cbn; by rewrite ?IHd. Qed.

Lemma to_int_nonnil (y : Z) (d : Decimal.uint) : Z.to_int y = Decimal.Pos d -> d <> Decimal.Nil.
Proof.
  destruct y; cbn; intros [= <-]; [done | apply DecimalPos.Unsigned.to_uint_nonnil].
Qed.

Lemma year_text_season (y : Z) : year_text (season_of_year y) = PyStr.str y.
Proof.
  unfold season_of_year, PyStr.str.
  generalize (PyStr.slice_from 2 (NilEmpty.string_of_int (Z.to_int (y + 1)))).
  intros suffix. destruct (Z.to_int y) as [d|d] eqn:E; cbn [NilEmpty.string_of_int].
  - apply to_int_nonnil in E.
    rewrite <- (split_head_digits d suffix) at 2.
    destruct d; try done; reflexivity.
  - change (String "-" (PyStr.split_head "-"
                           (NilEmpty.string_of_uint d +:+ String "-" suffix))
            = String "-" (NilEmpty.string_of_uint d)).
    by rewrite split_head_digits.
Qed.

Lemma str_inj (a b : Z) : PyStr.str a = PyStr.str b -> a = b.
Proof.
  unfold PyStr.str. intros H. apply DecimalZ.to_int_inj.
  pose proof (NilEmpty.isi (Z.to_int a)) as Ha. rewrite H, NilEmpty.isi in Ha.
  by injection Ha.
Qed.

#[local] Instance season_of_year_inj : Inj (=) (=) season_of_year.
Proof.
  intros a b H. apply str_inj. by rewrite <- !year_text_season, H.
Qed.

Lemma py_range_NoDup (a b : Z) : NoDup (py_range a b).
Proof.
  unfold py_range. change (map ?f ?l) with (f <$> l).
  apply NoDup_fmap_2; [|apply NoDup_seq]. intros x y. lia.
Qed.

(** No season string occurs twice in [self.seasons]. *)
Lemma seasons_NoDup (start_year end_year : Z) : NoDup (seasons start_year end_year).
Proof.
  unfold seasons. change (map ?f ?l) with (f <$> l).
  apply NoDup_fmap_2; [apply _ | apply py_range_NoDup].
Qed.

(** ** Dropping duplicates *)

Section DropDuplicates.

Context {A K : Type} `{EqDecision K} (key : A -> K).

Lemma drop_duplicates_from_sublist seen rows :
  drop_duplicates_from key seen rows `sublist_of` rows.
Proof.
  revert seen. induction rows as [|r rows IH]; intros seen; cbn; [constructor|].
  case_bool_decide; [apply sublist_cons | apply sublist_skip]; apply IH.
Qed.

Lemma drop_duplicates_sublist rows : drop_duplicates key rows `sublist_of` rows.
Proof. apply drop_duplicates_from_sublist. Qed.

(** Every row has a kept row with its key. *)
Lemma drop_duplicates_from_covers seen rows r :
  r ∈ rows ->
  key r ∈ seen \/ exists r', r' ∈ drop_duplicates_from key seen rows /\ key r' = key r.
Proof.
  revert seen. induction rows as [|x rows IH]; intros seen Hr.
  - by apply elem_of_nil in Hr.
  - cbn. apply elem_of_cons in Hr as [->|Hr].
    + case_bool_decide; [by left|]. right. exists x. split; [by left | done].
    + case_bool_decide.
      * apply IH, Hr.
      * destruct (IH (key x :: seen) Hr) as [Hs|(r' & Hr' & Hk)].
        -- apply elem_of_cons in Hs as [Hs|Hs]; [|by left].
           right. exists x. split; [by left | done].
        -- right. exists r'. split; [by right | done].
Qed.

Lemma drop_duplicates_covers rows r :
  r ∈ rows -> exists r', r' ∈ drop_duplicates key rows /\ key r' = key r.
Proof.
  intros Hr. destruct (drop_duplicates_from_covers [] rows r Hr) as [H|H]; [|done].
  by apply elem_of_nil in H.
Qed.

(** The first row is always kept. *)
Lemma drop_duplicates_head r rows :
  drop_duplicates key (r :: rows) = r :: drop_duplicates_from key [key r] rows.
Proof.
  unfold drop_duplicates. cbn. case_bool_decide as H; [|done].
  by apply elem_of_nil in H.
Qed.

End DropDuplicates.

(** ** The generation loop: one season *)

Lemma get_team_for_player_spec (partial : Prop) player_name possible_teams year
    (post : string -> World -> Prop) w :
  partial \/ possible_teams <> [] ->
  (forall t, post t w) ->
  hoare partial (_get_team_for_player player_name possible_teams year) post w.
Proof.
  intros Hok H. unfold _get_team_for_player.
  repeat lazymatch goal with
         | |- hoare _ (if ?b then _ else _) _ _ => destruct b
         end;
    try (apply hoare_ret, H).
  destruct possible_teams; [|apply hoare_ret, H].
  apply hoare_raise. by destruct Hok.
Qed.

Lemma added_one_player season g p s team_abbrev team_id :
  find_team_id (all_teams g) team_abbrev season = Some team_id ->
  p_team_id p = team_id -> p_team_abbreviation p = team_abbrev ->
  p_season p = season -> consistent_shooting (s_stats s) ->
  players_added season g
    (mkGen (all_teams g) (all_players g ++ [p]) (all_stats g ++ [s])
       (team_id_counter g) (player_id_counter g + 1)).
Proof.
  intros Hf H1 H2 H3 Hs. split; [done|]. split; [done|].
  exists [p], [s]. repeat split; try done.
  - apply Forall_singleton. split; [done|]. by rewrite H1, H2.
  - by apply Forall_singleton.
Qed.

Lemma add_legendary_spec (partial : Prop) year season player_info g w :
  partial \/ (pi_teams player_info <> [] /\ 1975 <= year) ->
  hoare partial (add_legendary year season player_info g)
    (fun g' _ => players_added season g g') w.
Proof.
  intros Hok. unfold add_legendary. apply hoare_bind.
  apply get_team_for_player_spec; [destruct Hok as [?|[? ?]]; [by left | by right]|].
  intros team_abbrev.
  destruct (find_team_id (all_teams g) team_abbrev season) as [team_id|] eqn:E.
  - eapply hoare_mono; [|apply add_player_spec].
    + intros g' w' (p & s & -> & _ & _ & H2 & H3 & H4 & H5).
      by eapply added_one_player.
    + destruct Hok as [?|[? ?]]; [by left | right; lia].
  - apply hoare_ret, players_added_refl.
Qed.

Lemma add_extra_spec (partial : Prop) teams_dict year season i g w :
  partial \/ (teams_dict <> [] /\ 1975 <= year) ->
  hoare partial (add_extra teams_dict year season i g)
    (fun g' _ => players_added season g g') w.
Proof.
  intros Hok. unfold add_extra.
  do 3 hoare_step.
  apply hoare_bind, hoare_choice.
  { destruct Hok as [?|[? ?]]; [by left | right]. by destruct teams_dict. }
  intros team_abbrev _.
  destruct (find_team_id (all_teams g) team_abbrev season) as [team_id|] eqn:E.
  - eapply hoare_mono; [|apply add_player_spec].
    + intros g' w' (p & s & -> & _ & _ & H2 & H3 & H4 & H5).
      by eapply added_one_player.
    + destruct Hok as [?|[? ?]]; [by left | right; lia].
  - apply hoare_ret, players_added_refl.
Qed.

(** Every legendary player of the tables has a possible team. *)
Lemma legendary_teams_nonempty year :
  Forall (fun player_info => pi_teams player_info <> []) (get_players_for_era year).
Proof.
  unfold get_players_for_era.
  repeat match goal with
         | |- context [between ?a year ?b] => destruct (between a year b)
         end;
    cbn; repeat constructor; done.
Qed.

Lemma teams_nonempty year : get_teams_for_era year <> [].
Proof. unfold get_teams_for_era. by destruct (year <? 2000). Qed.

Lemma hoare_bind_inv {A B} (partial : Prop) (m : M A) (k : A -> M B)
    (post : B -> World -> Prop) w :
  hoare partial (m ≫= k) post w ->
  hoare partial m (fun a w' => hoare partial (k a) post w') w.
Proof.
  unfold hoare, mbind, M_bind, bind. by destruct (m w).
Qed.

Lemma rest_of_season (partial : Prop) teams_dict year season g w :
  partial \/ (teams_dict <> [] /\ 1975 <= year) ->
  forall players,
    Forall (fun player_info => pi_teams player_info <> []) players ->
    hoare partial
      (g ← for_each players (add_legendary year season) g;
       num_extra_players ← Random.randint 40 80;
       for_each (py_range 0 num_extra_players) (add_extra teams_dict year season) g)
      (fun g' _ => players_added season g g') w.
Proof.
  intros Hok players Hplayers. apply hoare_bind.
  eapply hoare_mono;
    [|apply (hoare_for_each partial (fun g' _ => players_added season g g'))].
  - intros g2 w2 H2. cbv beta in H2.
    apply hoare_bind, hoare_randint; [by right|]. intros n Hn.
    eapply hoare_mono;
      [|apply (hoare_for_each partial (fun g' _ => players_added season g2 g'))].
    + intros g3 w3 H3. by eapply players_added_trans.
    + intros i g' w' _ H'. eapply hoare_mono; [|by apply add_extra_spec].
      intros g'' w'' H''. by eapply players_added_trans.
    + apply players_added_refl.
  - intros x g' w' Hx H'. eapply hoare_mono; [|apply add_legendary_spec].
    + intros g'' w'' H''. by eapply players_added_trans.
    + destruct Hok as [?|[? ?]]; [by left | right]. split; [|done].
      rewrite Forall_forall in Hplayers. by apply Hplayers.
  - apply players_added_refl.
Qed.

(** One season: the team rows of the era are appended, then players
    who resolve to these teams. When the run has to return, the season
    string must start with a year that is not before 1975. *)
Lemma process_season_spec (partial : Prop) season g w :
  partial \/ (exists year, PyStr.int (PyStr.split_head "-" season) = Some year
                           /\ 1975 <= year) ->
  hoare partial (process_season season g)
    (fun g' _ =>
       exists year,
         PyStr.int (PyStr.split_head "-" season) = Some year /\
         players_added season (create_teams (get_teams_for_era year) season g) g') w.
Proof.
  intros Hok. unfold process_season.
  destruct (PyStr.int (PyStr.split_head "-" season)) as [year|] eqn:E.
  2:{ apply hoare_raise. destruct Hok as [?|(y & ? & _)]; done. }
  assert (Hyear : partial \/ 1975 <= year).
  { destruct Hok as [?|(y & [= ->] & ?)]; [by left | by right]. }
  cbv zeta. set (g1 := create_teams _ _ g).
  eapply hoare_mono; [|apply rest_of_season].
  - intros g' w' H. by exists year.
  - destruct Hyear; [by left | right]. split; [apply teams_nonempty | done].
  - apply legendary_teams_nonempty.
Qed.

(** ** The generation loop: all seasons *)

(** A [for] loop keeps an invariant that may mention the elements
    already visited. *)
Lemma hoare_for_each_prefix {X S} (partial : Prop) (inv : list X -> S -> World -> Prop)
    (body : X -> S -> M S) (l : list X) :
  (forall pre x suf s w,
      l = pre ++ x :: suf -> inv pre s w ->
      hoare partial (body x s) (inv (pre ++ [x])) w) ->
  forall s w, inv [] s w -> hoare partial (for_each l body s) (inv l) w.
Proof.
  intros Hbody.
  assert (G : forall suf pre s w,
             l = pre ++ suf -> inv pre s w ->
             hoare partial (for_each suf body s) (inv l) w).
  { induction suf as [|x suf IH]; intros pre s w El Hs.
    - rewrite app_nil_r in El. subst. by apply hoare_ret.
    - cbn [for_each]. apply hoare_bind.
      eapply hoare_mono; [|by eapply Hbody].
      intros s' w' Hs'. apply (IH (pre ++ [x])); [|done].
      by rewrite <- app_assoc. }
  intros s w Hs. by apply (G l []).
Qed.

Lemma team_rows_keys teams_dict season next_id :
  map team_key (team_rows teams_dict season next_id)
  = map (fun abbrev => (abbrev, season)) (map fst teams_dict).
Proof.
  revert next_id. induction teams_dict as [|[abbrev info] rest IH]; intros n; [done|].
  cbn. by rewrite IH.
Qed.

Lemma team_rows_season teams_dict season next_id t :
  t ∈ team_rows teams_dict season next_id -> t_season t = season.
Proof.
  revert next_id. induction teams_dict as [|[abbrev info] rest IH]; intros n Ht.
  - by apply elem_of_nil in Ht.
  - cbn in Ht. apply elem_of_cons in Ht as [->|Ht]; [done | by eapply IH].
Qed.

(** The abbreviations of each of the two team tables are distinct. *)
Lemma teams_dict_NoDup year : NoDup (map fst (get_teams_for_era year)).
Proof.
  unfold get_teams_for_era.
  destruct (year <? 2000); apply (bool_decide_unpack _); by vm_compute.
Qed.

Lemma run_invariant_season processed season year g g' :
  season ∉ processed ->
  run_invariant processed g ->
  players_added season (create_teams (get_teams_for_era year) season g) g' ->
  run_invariant (processed ++ [season]) g'.
Proof.
  intros Hnew (Hkeys & Hseasons & Hres & Hstats)
         (Ht & _ & ps & ss & Hp & Hs & Hps & Hss).
  rewrite create_teams_rows in Ht, Hp, Hs, Hps. cbn in Ht, Hp, Hs, Hps.
  set (rows := team_rows (get_teams_for_era year) season (team_id_counter g)) in *.
  split; [|split; [|split]].
  - rewrite Ht, map_app. apply NoDup_app. split; [done|]. split.
    + intros k Hk Hk'. apply list_elem_of_In, in_map_iff in Hk as (t & <- & Ht1).
      apply list_elem_of_In, in_map_iff in Hk' as (t' & Hkey & Ht2).
      apply list_elem_of_In in Ht1, Ht2.
      apply Hnew. rewrite <- (team_rows_season _ _ _ _ Ht2).
      injection Hkey as _ ->. by apply Hseasons.
    + subst rows. rewrite team_rows_keys.
      change (map ?f ?l) with (f <$> l).
      apply NoDup_fmap_2; [by intros a b [= ->] | apply teams_dict_NoDup].
  - intros t. rewrite Ht. intros [H|H]%elem_of_app; apply elem_of_app.
    + left. by apply Hseasons.
    + right. apply list_elem_of_singleton. by eapply team_rows_season.
  - intros p. rewrite Hp, Ht. intros [H|H]%elem_of_app.
    + destruct (Hres p H) as (t & Hin & H1 & H2). exists t.
      split; [apply elem_of_app; by left | done].
    + rewrite Forall_forall in Hps.
      destruct (Hps p H) as [Hseason Hfind].
      apply find_team_id_Some in Hfind as (t & Hin & H1 & _ & H2).
      exists t. split; [done|]. by rewrite Hseason.
  - rewrite Hs. by apply Forall_app.
Qed.

(** The accumulated rows after the loop over the seasons. *)
Lemma seasons_loop_invariant (partial : Prop) (l : list string) w :
  NoDup l ->
  partial \/ Forall (fun season =>
               exists year, PyStr.int (PyStr.split_head "-" season) = Some year
                            /\ 1975 <= year) l ->
  hoare partial (for_each l process_season (mkGen [] [] [] 1 1))
    (fun g _ => run_invariant l g) w.
Proof.
  intros Hl Hok.
  apply (hoare_for_each_prefix partial (fun pre g _ => run_invariant pre g)).
  - intros pre season suf g w' El Hg.
    eapply hoare_mono; [|apply process_season_spec].
    + intros g' w'' (year & _ & H). eapply run_invariant_season; [|done..].
      rewrite El in Hl. apply NoDup_app in Hl as (_ & Hl & _).
      intros Hin. apply (Hl season Hin). by left.
    + destruct Hok as [?|HF]; [by left | right].
      rewrite Forall_forall in HF. apply HF. rewrite El.
      apply elem_of_app. right. by left.
  - repeat split; [constructor | by intros t Ht%elem_of_nil
                   | by intros p Hp%elem_of_nil | constructor].
Qed.

Lemma frames_of_invariant l g :
  run_invariant l g ->
  frames_consistent
    (mkFrames (drop_duplicates (fun t => (t_team_id t, t_season t)) (all_teams g))
       (drop_duplicates (fun p => (p_player_id p, p_season p)) (all_players g))
       (all_stats g)).
Proof.
  intros (Hkeys & _ & Hres & Hstats). split; [|split]; cbn.
  - eapply sublist_NoDup; [exact Hkeys|].
    change (map ?f ?l) with (f <$> l). apply fmap_sublist, drop_duplicates_sublist.
  - intros p Hp.
    eapply elem_of_sublist in Hp; [|apply drop_duplicates_sublist].
    destruct (Hres p Hp) as (t & Hin & H1 & H2).
    destruct (drop_duplicates_covers (fun t => (t_team_id t, t_season t)) _ t Hin)
      as (t' & Hin' & [= K1 K2]).
    exists t'. split; [done|]. split; congruence.
  - done.
Qed.

(** Every generation run that returns, returns consistent frames. *)
Lemma generate_consistent (start_year end_year : Z) w :
  hoare True (generate_comprehensive_data (init start_year end_year))
    (fun frames _ => frames_consistent frames) w.
Proof.
  unfold generate_comprehensive_data. apply hoare_bind.
  eapply hoare_mono; [|apply seasons_loop_invariant].
  - intros g w' Hg. apply hoare_ret. exact (frames_of_invariant _ _ Hg).
  - apply seasons_NoDup.
  - by left.
Qed.

(** C8: in the teams output of every generation run no two rows share
    abbreviation and season. *)
Theorem team_keys_unique (start_year end_year : Z) (w w' : World) (frames : Frames) :
  generate_comprehensive_data (init start_year end_year) w = Ok frames w' ->
  NoDup (map team_key (teams_df frames)).
Proof.
  intros E. by destruct (hoare_of_ok _ _ _ _ _ _ E (generate_consistent _ _ w)).
Qed.

(** C9: every player row of every generation run refers to a team row
    of the run's teams output with its team id and its season. *)
Theorem player_team_resolves (start_year end_year : Z) (w w' : World)
    (frames : Frames) (p : PlayerRow) :
  generate_comprehensive_data (init start_year end_year) w = Ok frames w' ->
  p ∈ players_df frames ->
  exists t, t ∈ teams_df frames /\ t_team_id t = p_team_id p
            /\ t_season t = p_season p.
Proof.
  intros E Hp.
  destruct (hoare_of_ok _ _ _ _ _ _ E (generate_consistent _ _ w)) as (_ & H & _).
  by apply H.
Qed.

(** ** The season 2020-21 *)

(** The generation of the single season 2020-21 returns from every
    state of the random source; its team rows are those of the modern
    table, numbered from 1, and its first player row is LeBron James
    with the Lakers, team id 14. *)
Lemma generate_2020 (w : World) :
  hoare False (generate_comprehensive_data (init 2020 2020))
    (fun frames _ =>
       teams_df frames = team_rows modern_teams "2020-21" 1 /\
       exists p rest,
         players_df frames = p :: rest
         /\ p_player_name p = "LeBron James" /\ p_team_abbreviation p = "LAL"
         /\ p_team_id p = 14 /\ p_season p = "2020-21") w.
Proof.
  unfold generate_comprehensive_data. apply hoare_bind.
  change (self_seasons (init 2020 2020)) with ["2020-21"].
  cbn [for_each]. apply hoare_bind. unfold process_season.
  change (PyStr.int (PyStr.split_head "-" "2020-21")) with (Some 2020).
  cbv beta iota zeta.
  change (get_teams_for_era 2020) with modern_teams.
  rewrite create_teams_rows. cbn [all_teams all_players all_stats team_id_counter
                                    player_id_counter app].
  set (teams := team_rows modern_teams "2020-21" 1).
  assert (El : get_players_for_era 2020
               = mkPlayerInfo "LeBron James" "SF" ["LAL"] "2020s"
                 :: tl (get_players_for_era 2020)) by reflexivity.
  rewrite El. cbn [for_each].
  eapply hoare_mono with
    (post := fun g' _ =>
       all_teams g' = teams /\
       exists p rest, all_players g' = p :: rest
         /\ p_player_name p = "LeBron James" /\ p_team_abbreviation p = "LAL"
         /\ p_team_id p = 14 /\ p_season p = "2020-21").
  { intros g' w' (Ht & p & rest & Hp & H1 & H2 & H3 & H4).
    do 2 apply hoare_ret. cbn [teams_df players_df]. rewrite Ht, Hp. split.
    - subst teams. by vm_compute.
    - rewrite drop_duplicates_head. by eexists _, _. }
  apply hoare_bind, hoare_bind.
  unfold add_legendary. cbn [pi_name pi_teams pi_position pi_era].
  change (_get_team_for_player "LeBron James" ["LAL"] 2020) with (mret "LAL" : M string).
  apply hoare_bind, hoare_ret.
  change (find_team_id teams "LAL" "2020-21") with (Some 14).
  eapply hoare_mono; [|apply add_player_spec; right; lia].
  intros g2 w2 (p & s & -> & _ & H1 & H2 & H3 & H4 & _).
  apply hoare_bind_inv.
  eapply hoare_mono; [|apply rest_of_season].
  - intros g3 w3 (Ht & _ & ps & ss & Hp & _). cbn in Ht, Hp.
    split; [done|]. by exists p, ps.
  - right. by split.
  - pose proof (legendary_teams_nonempty 2020) as HF. rewrite El in HF.
    by apply Forall_cons in HF as [_ HF].
Qed.


(** C6: generating with start = 2020 and end = 2020 returns, from every
    state of the random source; there is one season, [2020-21]; the
    team rows are the 30 rows of the modern table; and the players
    output has a row for LeBron James with abbreviation [LAL] and the
    id of the [LAL] team row. *)
Theorem generation_2020 (w : World) :
  self_seasons (init 2020 2020) = ["2020-21"] /\
  exists frames w',
    generate_comprehensive_data (init 2020 2020) w = Ok frames w'
    /\ teams_df frames = team_rows modern_teams "2020-21" 1
    /\ length (teams_df frames) = 30%nat
    /\ exists p t,
         p ∈ players_df frames
         /\ p_player_name p = "LeBron James" /\ p_team_abbreviation p = "LAL"
         /\ p_season p = "2020-21"
         /\ t ∈ teams_df frames
         /\ t_team_abbreviation t = "LAL" /\ t_season t = "2020-21"
         /\ t_team_id t = p_team_id p.
Proof.
  split; [reflexivity|].
  destruct (hoare_ok _ _ _ (generate_2020 w))
    as (frames & w' & E & Ht & p & rest & Hp & H1 & H2 & H3 & H4).
  exists frames, w'. split; [done|]. split; [done|]. split; [by rewrite Ht|].
  exists p, (mkTeamRow 14 "Los Angeles Lakers" "LAL" "Los Angeles" "Western" "Pacific"
               "2020-21").
  rewrite Hp, Ht. split; [by left|].
  split; [exact H1|]. split; [exact H2|]. split; [exact H4|].
  split; [|split; [reflexivity|split; [reflexivity|]]].
  - apply list_elem_of_In. vm_compute. tauto.
  - (cbn [t_team_id]; by rewrite H3).
Qed.

Lemma team_keys_unique_witness :
  exists frames w',
    generate_comprehensive_data (init 2020 2020) sample_world = Ok frames w'
    /\ length (teams_df frames) = 30%nat
    /\ NoDup (map team_key (teams_df frames)).
Proof.
  destruct (hoare_ok _ _ _ (generate_2020 sample_world)) as (frames & w' & E & Ht & _).
  exists frames, w'. split; [exact E|]. split; [by rewrite Ht|].
  exact (team_keys_unique 2020 2020 sample_world w' frames E).
Defined.

Lemma player_team_resolves_witness :
  exists frames w' p,
    generate_comprehensive_data (init 2020 2020) sample_world = Ok frames w'
    /\ p ∈ players_df frames
    /\ p_player_name p = "LeBron James"
    /\ exists t, t ∈ teams_df frames /\ t_team_id t = p_team_id p
                 /\ t_season t = p_season p.
Proof.
  destruct (hoare_ok _ _ _ (generate_2020 sample_world))
    as (frames & w' & E & _ & p & rest & Hp & H1 & _).
  assert (Hin : p ∈ players_df frames) by (rewrite Hp; by left).
  exists frames, w', p. split; [exact E|]. split; [exact Hin|]. split; [exact H1|].
  exact (player_team_resolves 2020 2020 sample_world w' frames p E Hin).
Defined.

(** The run of the years 9999 to 9999 returns too, with the season
    string of three final digits on its team rows. *)
Example generation_9999 :
  match generate_comprehensive_data (init 9999 9999) sample_world with
  | Ok frames _ => map t_season (firstn 2 (teams_df frames))
  | Raise _ => []
  end = ["9999-000"; "9999-000"].
Proof. vm_compute. reflexivity. Qed.

(** A run that includes a year before 1975 raises: the range of the
    draft years, from 1975 to the year, is empty. *)
Example generation_1974_raises :
  generate_comprehensive_data (init 1974 1974) sample_world = Raise ValueError.
Proof. vm_compute. reflexivity. Qed.

(** Every stat row of every generation run that returns has consistent
    shooting columns. *)
Lemma stat_rows_consistent (start_year end_year : Z) (w w' : World) (frames : Frames) :
  generate_comprehensive_data (init start_year end_year) w = Ok frames w' ->
  Forall (fun s => consistent_shooting (s_stats s)) (stats_df frames).
Proof.
  intros E. by destruct (hoare_of_ok _ _ _ _ _ _ E (generate_consistent _ _ w)) as (_ & _ & H).
Qed.

(** A second call with the draws of the first, run in the store the
    first call left behind, returns the stats of the first. *)
Example second_call_same_stats :
  match _generate_era_appropriate_stats "LeBron James" "SF" 2021 "2020s" sample_world with
  | Ok line w' =>
      match _generate_era_appropriate_stats "LeBron James" "SF" 2021 "2020s"
              (mkWorld (heap w') (source sample_world) (drawn sample_world)) with
      | Ok line' w'' =>
          line' = line /\ length (heap w') = 11%nat /\ length (heap w'') = 22%nat
      | Raise _ => False
      end
  | Raise _ => False
  end.
Proof. vm_compute. repeat split. Qed.
